(** * cleanup_stale_branches.py: the branch retirement pipeline

    A shallow embedding of [src/cleanup_stale_branches.py] and the proofs of
    the properties its specification states about it.

    Text is modelled as Rocq strings (sequences of 8-bit characters); the
    white-space and letter classes are the ASCII ones, so the model covers
    branch names, environment values and command output that are ASCII.
    Everything the script asks the operating system (sub-processes, the file
    system, the working directory) goes through the [OS] interface below, and
    every observable action is recorded in a trace of events. *)

From Stdlib Require Import ZArith Ascii String List Bool Lia.
From stdpp Require Import base gmap strings list.
Import ListNotations.

Local Open Scope Z_scope.
Local Open Scope list_scope.
Local Open Scope string_scope.

(** ** Python string operations *)

Module Py.

Definition LF : ascii := Ascii.ascii_of_nat 10.
Definition CR : ascii := Ascii.ascii_of_nat 13.
Definition BACKSLASH : ascii := Ascii.ascii_of_nat 92.

(** [str.isspace] on one ASCII character: TAB, LF, VT, FF, CR, the four
    separators FS GS RS US, and the blank. *)
Definition isspace (c : ascii) : bool :=
  let n := Ascii.nat_of_ascii c in
  ((9 <=? n) && (n <=? 13) || (28 <=? n) && (n <=? 32))%nat.

Definition isdigit (c : ascii) : bool :=
  let n := Ascii.nat_of_ascii c in ((48 <=? n) && (n <=? 57))%nat.

Definition lower_char (c : ascii) : ascii :=
  let n := Ascii.nat_of_ascii c in
  if ((65 <=? n) && (n <=? 90))%nat then Ascii.ascii_of_nat (n + 32) else c.

(** [s.lower()] *)
Fixpoint lower (s : string) : string :=
  match s with
  | EmptyString => EmptyString
  | String c s' => String (lower_char c) (lower s')
  end.

Definition is_empty (s : string) : bool :=
  match s with EmptyString => true | String _ _ => false end.

Fixpoint lstrip (s : string) : string :=
  match s with
  | EmptyString => EmptyString
  | String c s' => if isspace c then lstrip s' else s
  end.

Fixpoint rstrip (s : string) : string :=
  match s with
  | EmptyString => EmptyString
  | String c s' =>
      let r := rstrip s' in
      if is_empty r && isspace c then EmptyString else String c r
  end.

(** [s.strip()] *)
Definition strip (s : string) : string := rstrip (lstrip s).

(** [s.split(sep)] for a one-character separator: never the empty list. *)
Fixpoint split (sep : ascii) (s : string) : list string :=
  match s with
  | EmptyString => [EmptyString]
  | String c s' =>
      if Ascii.eqb c sep then EmptyString :: split sep s'
      else match split sep s' with
           | [] => [String c EmptyString]
           | x :: xs => String c x :: xs
           end
  end.

(** The line boundaries of [str.splitlines] below code 128. *)
Definition is_linebreak (c : ascii) : bool :=
  let n := Ascii.nat_of_ascii c in
  ((10 <=? n) && (n <=? 13) || (28 <=? n) && (n <=? 30))%nat.

(** [s.splitlines()]: a CR LF pair is one boundary, and a final boundary
    opens no empty last line. *)
Fixpoint splitlines (s : string) : list string :=
  match s with
  | EmptyString => []
  | String c s' =>
      if is_linebreak c then
        EmptyString ::
          (if Ascii.eqb c CR then
             match s' with
             | String d s'' => if Ascii.eqb d LF then splitlines s'' else splitlines s'
             | EmptyString => splitlines s'
             end
           else splitlines s')
      else match splitlines s' with
           | [] => [String c EmptyString]
           | l :: ls => String c l :: ls
           end
  end.

(** [sep.join(l)] *)
Definition join (sep : string) (l : list string) : string := String.concat sep l.

(** [s.startswith(p)] *)
Definition startswith (s p : string) : bool := String.prefix p s.

(** [sub in s] *)
Fixpoint contains (sub s : string) : bool :=
  String.prefix sub s ||
  match s with
  | EmptyString => false
  | String _ s' => contains sub s'
  end.

(** [s[:n]] *)
Definition take (n : nat) (s : string) : string := String.substring 0 n s.

(** The characters [re.escape] puts a backslash before. *)
Definition re_special (c : ascii) : bool :=
  existsb (Ascii.eqb c)
    (list_ascii_of_string "()[]{}?*+-|^$\.&~# "
       ++ map Ascii.ascii_of_nat [9; 10; 13; 11; 12]%nat).

(** [re.escape(s)] *)
Fixpoint re_escape (s : string) : string :=
  match s with
  | EmptyString => EmptyString
  | String c s' =>
      if re_special c then String BACKSLASH (String c (re_escape s'))
      else String c (re_escape s')
  end.

End Py.

(** ** The process and its environment *)

(** What [subprocess.run(cmd, capture_output=True, text=True)] returns. *)
Record CompletedProcess : Type := {
  returncode : Z;
  stdout : string;
  stderr : string
}.

(** The operating system as the script sees it. [subprocess_run] may change
    the world (a deleted branch, fetched references); the executable is
    assumed to be installed, so starting it does not fail. [os_chdir] gives
    [None] where Python raises [OSError]. *)
Class OS (World : Type) : Type := {
  subprocess_run : list string -> World -> CompletedProcess * World;
  path_exists : string -> World -> bool;
  path_is_dir : string -> World -> bool;
  os_chdir : string -> World -> option World
}.

(** The exceptions that reach the interpreter's top level. *)
Inductive exn : Type :=
| RuntimeError (msg : string)
| OSError
| TyperExit (code : Z).

(** How a statement of the loop body ends abnormally: [continue], or an
    exception. *)
Inductive control : Type :=
| Continue
| Raise (e : exn).

(** What the script does that can be seen from outside, in order. *)
Inductive event : Type :=
| Print (line : string)            (* print(...), one line on stdout *)
| EchoErr (line : string)          (* typer.echo(..., err=True) *)
| Ran (cmd : list string) (p : CompletedProcess)
| Chdir (path : string).

Record outcome (World A : Type) : Type := {
  result : control + A;
  final : World;
  trace : list event
}.
Arguments result {World A} _.
Arguments final {World A} _.
Arguments trace {World A} _.

(** Computations: the world is threaded through, events are appended, and an
    abnormal end skips what follows. *)
Definition M (World A : Type) : Type := World -> outcome World A.

Section Monad.
Context {World : Type}.

Definition ret {A} (a : A) : M World A :=
  fun w => {| result := inr a; final := w; trace := [] |}.

(** An outcome reached after the events [t]. *)
Definition after {A} (t : list event) (o : outcome World A) : outcome World A :=
  {| result := result o; final := final o; trace := t ++ trace o |}.

Definition bind {A B} (m : M World A) (f : A -> M World B) : M World B :=
  fun w =>
    let o := m w in
    match result o with
    | inl c => {| result := inl c; final := final o; trace := trace o |}
    | inr a => after (trace o) (f a (final o))
    end.

Definition abort {A} (c : control) : M World A :=
  fun w => {| result := inl c; final := w; trace := [] |}.

Definition emit (e : event) : M World unit :=
  fun w => {| result := inr tt; final := w; trace := [e] |}.

End Monad.

Notation "'let*' x ':=' m 'in' k" := (bind m (fun x => k))
  (at level 10, x name, m at level 100, k at level 200, only parsing).
Notation "'run*' m 'in' k" := (bind m (fun _ => k))
  (at level 10, m at level 100, k at level 200, only parsing).

(** ** Module level: configuration from the environment *)

(** [os.getenv(name, default)], on the environment as [load_dotenv()] left
    it. *)
Definition getenv (env : gmap string string) (name default : string) : string :=
  match env !! name with
  | Some v => v
  | None => default
  end.

(** [{x.strip().lower() for x in names if x.strip()}] *)
Definition name_set (names : list string) : gset string :=
  list_to_set
    (map (fun x => Py.lower (Py.strip x))
       (filter (fun x => Py.is_empty (Py.strip x) = false) names)).

(** The set a comma-separated setting stands for. *)
Definition branch_set (value : string) : gset string :=
  name_set (Py.split "," value).

Record Config : Type := {
  PROTECTED : gset string;
  CRITICAL : gset string;
  BASE_BRANCH_FOR_COMMIT_CHECK : string
}.

Definition empty_set_message (name : string) : string :=
  name ++ " resolved to an empty set. "
       ++ "Refusing to run to avoid deleting important branches.".

(** Lines 21-54: the three settings are read, then checked in this order;
    each failed check raises [RuntimeError] while the module is loaded. *)
Definition load_config (env : gmap string string) : exn + Config :=
  let protected :=
    branch_set (getenv env "PROTECTED_BRANCHES"
                  "main,master,develop,dev,release,staging,production") in
  let critical := branch_set (getenv env "CRITICAL_BRANCHES" "master,dev") in
  let base := Py.strip (getenv env "BASE_BRANCH_FOR_COMMIT_CHECK" "dev") in
  if bool_decide (protected = ∅) then
    inl (RuntimeError (empty_set_message "PROTECTED_BRANCHES"))
  else if bool_decide (critical = ∅) then
    inl (RuntimeError (empty_set_message "CRITICAL_BRANCHES"))
  else if Py.is_empty base then
    inl (RuntimeError "BASE_BRANCH_FOR_COMMIT_CHECK is required to run checks")
  else
    inr {| PROTECTED := protected; CRITICAL := critical;
           BASE_BRANCH_FOR_COMMIT_CHECK := base |}.

(** The options of the [clean] command, as typer hands them over; [base] is
    [None] when [--base] is not given. *)
Record Args : Type := {
  repo : string;
  remote : string;
  base : option string;
  dry_run : bool;
  force : bool;
  protect : list string;
  fetch : bool;
  check_upstream_missing : bool;
  check_remote_missing : bool;
  check_issue_closure : bool
}.

(** ** The script's functions *)

Section Script.
Context {World : Type} `{OS World}.

(** [subprocess.run(cmd, capture_output=True, text=True)] *)
Definition spawn (cmd : list string) : M World CompletedProcess :=
  fun w =>
    let (p, w') := subprocess_run cmd w in
    {| result := inr p; final := w'; trace := [Ran cmd p] |}.

Definition raise {A} (e : exn) : M World A := abort (Raise e).

Definition print (line : string) : M World unit := emit (Print line).

Definition echo_err (line : string) : M World unit := emit (EchoErr line).

(** [try: body  except RuntimeError as e: handler(str(e))]: no other
    exception is caught. *)
Definition try_except_RuntimeError {A} (body : M World A)
    (handler : string -> M World A) : M World A :=
  fun w =>
    let o := body w in
    match result o with
    | inl (Raise (RuntimeError msg)) => after (trace o) (handler msg (final o))
    | _ => o
    end.

(** One iteration of a [for] loop: [continue] ends the iteration normally. *)
Definition iteration (body : M World unit) : M World unit :=
  fun w =>
    let o := body w in
    match result o with
    | inl Continue => {| result := inr tt; final := final o; trace := trace o |}
    | _ => o
    end.

(** [for x in l: body(x)] *)
Fixpoint for_each {A} (l : list A) (body : A -> M World unit) : M World unit :=
  match l with
  | [] => ret tt
  | x :: l' => run* iteration (body x) in for_each l' body
  end.

Definition run (cmd : list string) (check : bool) : M World string :=
  let* p := spawn cmd in
  if check && negb (Z.eqb (returncode p) 0) then
    raise (RuntimeError ("Command failed: " ++ Py.join " " cmd
                           ++ String Py.LF (Py.strip (stderr p))))
  else ret (Py.strip (stdout p)).

Definition ensure_git_repo (path : string) : M World unit :=
  fun w =>
    if negb (path_is_dir path w) then
      raise (RuntimeError ("Path does not exist: " ++ path)) w
    else if negb (path_is_dir (path ++ "/.git") w) then
      raise (RuntimeError ("Not a git repo: " ++ path)) w
    else ret tt w.

(** [os.chdir(path)] *)
Definition chdir (path : string) : M World unit :=
  fun w =>
    match os_chdir path w with
    | Some w' => {| result := inr tt; final := w'; trace := [Chdir path] |}
    | None => raise OSError w
    end.

Definition current_branch : M World string :=
  run ["git"; "branch"; "--show-current"] true.

Definition local_branches : M World (list string) :=
  let* out := run ["git"; "for-each-ref"; "--format=%(refname:short)"; "refs/heads"] true in
  ret (filter (fun b => Py.is_empty b = false) (Py.splitlines out)).

Definition upstream_for (branch : string) : M World (option string) :=
  let* out := run ["git"; "rev-parse"; "--abbrev-ref"; branch ++ "@{upstream}"] false in
  ret (if negb (Py.is_empty out) && negb (Py.contains "fatal:" out)
       then Some out else None).

Definition remote_branch_exists (remote branch : string) : M World bool :=
  let* out := run ["git"; "ls-remote"; "--heads"; remote; branch] false in
  ret (negb (Py.is_empty (Py.strip out))).

Definition delete_command (branch : string) (force : bool) : list string :=
  ["git"; "branch"; if force then "-D" else "-d"; branch].

Definition delete_branch (branch : string) (force dry_run : bool) : M World unit :=
  let cmd := delete_command branch force in
  if dry_run then print ("[DRY] " ++ Py.join " " cmd)
  else (run* run cmd true in ret tt).

Definition tip_sha (branch : string) : M World string :=
  run ["git"; "rev-parse"; branch] true.

Definition commit_in_base (commit base : string) : M World bool :=
  let* p := spawn ["git"; "merge-base"; "--is-ancestor"; commit; base] in
  ret (Z.eqb (returncode p) 0).

(** The digits a string starts with, and what follows them. *)
Fixpoint span_digits (s : string) : string * string :=
  match s with
  | EmptyString => (EmptyString, EmptyString)
  | String c s' =>
      if Py.isdigit c then
        let (ds, rest) := span_digits s' in (String c ds, rest)
      else (EmptyString, s)
  end.

(** [re.match(r"^(\d+)[-_].+", branch)] and its group 1. As digits and
    separators are different characters, the only way to match is with the
    whole run of leading digits; [.] takes any character but LF. *)
Definition issue_id_from_branch (branch : string) : option string :=
  match span_digits branch with
  | (String d ds, String sep (String c _)) =>
      if (Ascii.eqb sep "-" || Ascii.eqb sep "_") && negb (Ascii.eqb c Py.LF)
      then Some (String d ds) else None
  | _ => None
  end.

Definition closure_pattern (issue_id : string) : string :=
  "(closes|closed|fixes|fixed|resolves|resolved)\s+#?"
    ++ Py.re_escape issue_id ++ "\b".

Definition closure_query (base issue_id : string) : list string :=
  ["git"; "log"; base; "--regexp-ignore-case";
   "--grep=" ++ closure_pattern issue_id; "-n"; "1"].

Definition base_has_issue_closure (base issue_id : string) : M World bool :=
  let* out := run (closure_query base issue_id) false in
  ret (negb (Py.is_empty (Py.strip out))).

Definition continue {A} : M World A := abort Continue.

Definition when (c : bool) (m : M World unit) : M World unit :=
  if c then m else ret tt.

(** [not up or not up.startswith(prefix)] for [up : Optional[str]] *)
Definition not_tracking (up : option string) (prefix : string) : bool :=
  match up with
  | None => true
  | Some u => Py.is_empty u || negb (Py.startswith u prefix)
  end.

Definition skip_no_issue_id (b : string) : M World unit :=
  run* print ("[SKIP] " ++ b ++ " (no issue id prefix for closure check)") in
  continue.

(** The body of the loop over the branches (lines 194-231), one definition
    per guard, in the order of the source. A guard that decides prints its
    line and ends the iteration with [continue]. *)

(** Lines 196-198. *)
Definition guard_current (cur b : string) : M World unit :=
  when (String.eqb b cur)
    (run* print ("[SKIP] " ++ b ++ " (current)") in continue).

(** Lines 199-201. *)
Definition guard_protected (protected : gset string) (b : string) : M World unit :=
  when (bool_decide (Py.lower b ∈ protected))
    (run* print ("[SKIP] " ++ b ++ " (protected)") in continue).

(** Lines 202-204. *)
Definition guard_critical (critical : gset string) (b : string) : M World unit :=
  when (bool_decide (Py.lower b ∈ critical))
    (run* print ("[SKIP] " ++ b ++ " (critical)") in continue).

(** Lines 206-210. *)
Definition guard_upstream (a : Args) (b : string) : M World unit :=
  when (check_upstream_missing a)
    (let* up := upstream_for b in
     when (not_tracking up (remote a ++ "/"))
       (run* print ("[SKIP] " ++ b ++ " (local-only or non-"
                      ++ remote a ++ " upstream)") in
        continue)).

(** Lines 212-219. *)
Definition guard_issue_closure (a : Args) (base_ref b : string) : M World unit :=
  when (check_issue_closure a)
    (match issue_id_from_branch b with
     | None => skip_no_issue_id b
     | Some issue_id =>
         if Py.is_empty issue_id then skip_no_issue_id b
         else
           let* closed := base_has_issue_closure base_ref issue_id in
           when (negb closed)
             (run* print ("[KEEP] " ++ b ++ " (no issue-closure marker on "
                            ++ base_ref ++ " for #" ++ issue_id ++ ")") in
              continue)
     end).

(** Lines 221-224; the tip is needed again by the line of the deletion. *)
Definition guard_ancestry (base_ref b : string) : M World string :=
  let* tip := tip_sha b in
  let* contained := commit_in_base tip base_ref in
  run* when (negb contained)
         (run* print ("[KEEP] " ++ b ++ " (tip " ++ Py.take 8 tip
                        ++ " NOT in " ++ base_ref ++ ")") in
          continue) in
  ret tip.

(** Lines 226-228; [and] asks the remote only when the check is enabled. *)
Definition guard_remote (a : Args) (b : string) : M World unit :=
  let* on_remote :=
    (if check_remote_missing a then remote_branch_exists (remote a) b
     else ret false) in
  when on_remote
    (run* print ("[KEEP] " ++ b ++ " (exists on " ++ remote a ++ ")") in
     continue).

(** Lines 230-231. *)
Definition retire (a : Args) (base_ref b tip : string) : M World unit :=
  run* print ("[DEL ] " ++ b ++ " (tip " ++ Py.take 8 tip
                ++ " is in " ++ base_ref ++ ")") in
  delete_branch b (force a) (dry_run a).

(** Lines 206-231: the checks that query the repository, and the
    deletion. *)
Definition checks_and_retire (a : Args) (base_ref b : string) : M World unit :=
  run* guard_upstream a b in
  run* guard_issue_closure a base_ref b in
  let* tip := guard_ancestry base_ref b in
  run* guard_remote a b in
  retire a base_ref b tip.

(** Lines 199-231: what the loop body does with a branch that is not the
    one checked out. *)
Definition guards_after_current (protected critical : gset string)
    (base_ref : string) (a : Args) (b : string) : M World unit :=
  run* guard_protected protected b in
  run* guard_critical critical b in
  checks_and_retire a base_ref b.

Definition clean_branch (protected critical : gset string)
    (cur base_ref : string) (a : Args) (b : string) : M World unit :=
  run* guard_current cur b in
  guards_after_current protected critical base_ref a b.

(** The sets the loop consults (lines 171-172). *)
Definition run_protected (cfg : Config) (a : Args) : gset string :=
  PROTECTED cfg ∪ name_set (protect a).

Definition run_critical (cfg : Config) (a : Args) : gset string :=
  CRITICAL cfg.

(** typer checks [--repo] before the command runs ([exists=True]); click
    ends the process with status 2 on a path that does not exist. Its usage
    message is not modelled. *)
Definition check_repo_option (path : string) : M World unit :=
  fun w => if path_exists path w then ret tt w else raise (TyperExit 2) w.

(** Lines 174-185: what the [try] block computes. *)
Definition survey (a : Args) : M World (string * list string) :=
  run* ensure_git_repo (repo a) in
  run* chdir (repo a) in
  run* when (fetch a)
         (run* run ["git"; "fetch"; remote a; "--prune"] false in ret tt) in
  let* cur := current_branch in
  let* branches := local_branches in
  ret (cur, branches).

(** Lines 174-191: everything before the loop. It yields the current
    branch and the branches to go through. *)
Definition preflight (a : Args) (base_ref : string) : M World (string * list string) :=
  let* found :=
    try_except_RuntimeError (survey a)
      (fun msg => run* echo_err msg in raise (TyperExit 2)) in
  let* resolved := run ["git"; "rev-parse"; "--verify"; "--quiet"; base_ref] false in
  run* when (Py.is_empty resolved)
         (run* echo_err ("Base ref not found: " ++ base_ref) in
          raise (TyperExit 2)) in
  ret found.

(** [--base], or the configured default. *)
Definition base_of (cfg : Config) (a : Args) : string :=
  default (BASE_BRANCH_FOR_COMMIT_CHECK cfg) (base a).

(** The [clean] command. *)
Definition clean (cfg : Config) (a : Args) : M World unit :=
  run* check_repo_option (repo a) in
  let protected := run_protected cfg a in
  let critical := run_critical cfg a in
  let base_ref := base_of cfg a in
  let* found := preflight a base_ref in
  for_each (snd found) (clean_branch protected critical (fst found) base_ref a).

(** The script, run as [cleanup_stale_branches.py clean ...]: the module is
    loaded, then the command runs. *)
Definition script (env : gmap string string) (a : Args) : M World unit :=
  match load_config env with
  | inl e => raise e
  | inr cfg => clean cfg a
  end.

End Script.

(** The status the process ends with: 0 after a normal return, the code of
    [typer.Exit], and 1 when an exception reaches the top level (the
    interpreter prints the traceback and exits with 1). [continue] never
    leaves a loop. *)
Definition exit_status (r : control + unit) : Z :=
  match r with
  | inr _ => 0
  | inl (Raise (TyperExit code)) => code
  | inl (Raise _) => 1
  | inl Continue => 1
  end.

(** The lines written to standard output. *)
Fixpoint printed (t : list event) : list string :=
  match t with
  | [] => []
  | Print line :: t' => line :: printed t'
  | _ :: t' => printed t'
  end.

(** The commands started. *)
Fixpoint commands (t : list event) : list (list string) :=
  match t with
  | [] => []
  | Ran cmd _ :: t' => cmd :: commands t'
  | _ :: t' => commands t'
  end.

(** ** A small repository to run the script on

    An executable instance of the [OS] interface: a repository at [/repo]
    with its local branches and their tip commits, the commits reachable
    from the base branch, the heads of the remote, and the commit messages
    of the base, which [git log --grep] searches the way git does. It serves
    to evaluate the script on concrete inputs. *)

Module Demo.

Record Repo : Type := {
  heads : list (string * string);     (* local branch, tip commit *)
  HEAD : string;                      (* the branch checked out *)
  in_base : list string;              (* commits reachable from the base *)
  upstreams : list (string * string); (* local branch, its upstream *)
  remote_heads : list string;
  remote_reachable : bool;
  base_log : list string              (* the commit messages of the base *)
}.

Definition ok (out : string) (r : Repo) : CompletedProcess * Repo :=
  ({| returncode := 0; stdout := out ++ String Py.LF ""; stderr := "" |}, r).

Definition quiet (code : Z) (r : Repo) : CompletedProcess * Repo :=
  ({| returncode := code; stdout := ""; stderr := "" |}, r).

Definition failed (code : Z) (msg : string) (r : Repo) : CompletedProcess * Repo :=
  ({| returncode := code; stdout := ""; stderr := msg ++ String Py.LF "" |}, r).

Fixpoint lookup_name (name : string) (l : list (string * string)) : option string :=
  match l with
  | [] => None
  | (k, v) :: l' => if String.eqb k name then Some v else lookup_name name l'
  end.

Definition mem (x : string) (l : list string) : bool := existsb (String.eqb x) l.

Definition without (name : string) (r : Repo) : Repo :=
  {| heads := List.filter (fun kv => negb (String.eqb (fst kv) name)) (heads r);
     HEAD := HEAD r; in_base := in_base r; upstreams := upstreams r;
     remote_heads := remote_heads r; remote_reachable := remote_reachable r;
     base_log := base_log r |}.

Definition rev_parse (ref : string) (r : Repo) : CompletedProcess * Repo :=
  match lookup_name ref (heads r) with
  | Some sha => ok sha r
  | None => failed 128 ("fatal: ambiguous argument '" ++ ref ++ "'") r
  end.

(** How git reads the pattern of [--grep] when the command gives neither
    [-E] nor [-P], as the script's does: as a basic regular expression. In
    it [( ) | + ?] stand for themselves; [\s] is a white-space character and
    [\b] a word boundary, and with [--regexp-ignore-case] a letter matches
    in either case. A pattern with one of [. * [ ^ $] or with another escape
    is outside this model. *)
Inductive atom : Type :=
| Lit (c : ascii)
| Space
| Boundary.

Definition operator (c : ascii) : bool :=
  existsb (Ascii.eqb c) (list_ascii_of_string ".*[^$").

Fixpoint basic_atoms (p : string) : option (list atom) :=
  match p with
  | EmptyString => Some []
  | String c p' =>
      if Ascii.eqb c Py.BACKSLASH then
        match p' with
        | String e p'' =>
            if Ascii.eqb e "s" then option_map (cons Space) (basic_atoms p'')
            else if Ascii.eqb e "b" then option_map (cons Boundary) (basic_atoms p'')
            else None
        | EmptyString => None
        end
      else if operator c then None
      else option_map (cons (Lit c)) (basic_atoms p')
  end.

Definition blank (c : ascii) : bool :=
  let n := Ascii.nat_of_ascii c in ((n =? 32) || (9 <=? n) && (n <=? 13))%nat.

Definition word_char (c : ascii) : bool :=
  let n := Ascii.nat_of_ascii c in
  ((48 <=? n) && (n <=? 57) || (65 <=? n) && (n <=? 90)
   || (97 <=? n) && (n <=? 122) || (n =? 95))%nat.

Definition at_word (c : option ascii) : bool :=
  match c with
  | Some c => word_char c
  | None => false
  end.

Definition first_char (s : string) : option ascii :=
  match s with
  | String c _ => Some c
  | EmptyString => None
  end.

(** The atoms match a prefix of [s]; [prev] is the character before it. *)
Fixpoint matches_here (atoms : list atom) (prev : option ascii) (s : string) : bool :=
  match atoms with
  | [] => true
  | Lit c :: atoms' =>
      match s with
      | String d s' =>
          Ascii.eqb (Py.lower_char c) (Py.lower_char d)
          && matches_here atoms' (Some d) s'
      | EmptyString => false
      end
  | Space :: atoms' =>
      match s with
      | String d s' => blank d && matches_here atoms' (Some d) s'
      | EmptyString => false
      end
  | Boundary :: atoms' =>
      xorb (at_word prev) (at_word (first_char s)) && matches_here atoms' prev s
  end.

(** The atoms match somewhere in [s]. *)
Fixpoint found_from (atoms : list atom) (prev : option ascii) (s : string) : bool :=
  matches_here atoms prev s
  || match s with
     | String d s' => found_from atoms (Some d) s'
     | EmptyString => false
     end.

(** Whether [git log --regexp-ignore-case --grep=pattern] finds a commit
    among those with the [messages]. *)
Definition log_finds (grep : string) (messages : list string) : bool :=
  if Py.startswith grep "--grep=" then
    match basic_atoms (String.substring 7 (String.length grep - 7) grep) with
    | Some atoms => existsb (found_from atoms None) messages
    | None => false
    end
  else false.

(** What [git] answers in the repository. *)
Definition git (cmd : list string) (r : Repo) : CompletedProcess * Repo :=
  match cmd with
  | [_; sub; x] =>
      if String.eqb sub "branch" && String.eqb x "--show-current" then
        (if Py.is_empty (HEAD r) then quiet 0 r else ok (HEAD r) r)
      else if String.eqb sub "rev-parse" then rev_parse x r
      else quiet 1 r
  | [_; sub; opt; x] =>
      if String.eqb sub "branch" && (String.eqb opt "-d" || String.eqb opt "-D") then
        match lookup_name x (heads r) with
        | Some sha =>
            if String.eqb opt "-d" && negb (mem sha (in_base r)) then
              failed 1 ("error: the branch '" ++ x ++ "' is not fully merged") r
            else ok ("Deleted branch " ++ x) (without x r)
        | None => failed 1 ("error: branch '" ++ x ++ "' not found") r
        end
      else if String.eqb sub "for-each-ref" then
        ({| returncode := 0;
            stdout := String.concat (String Py.LF "") (map fst (heads r))
                        ++ String Py.LF "";
            stderr := "" |}, r)
      else if String.eqb sub "rev-parse" && String.eqb opt "--abbrev-ref" then
        match lookup_name x (map (fun kv => (fst kv ++ "@{upstream}", snd kv))
                               (upstreams r)) with
        | Some up => ok up r
        | None => failed 128 "fatal: no upstream configured" r
        end
      else if String.eqb sub "fetch" then
        (if remote_reachable r then quiet 0 r
         else failed 128 "fatal: unable to access the remote" r)
      else quiet 1 r
  | [_; sub; x; y; z] =>
      if String.eqb sub "rev-parse" && String.eqb x "--verify" then
        match lookup_name z (heads r) with
        | Some sha => ok sha r
        | None => quiet 1 r
        end
      else if String.eqb sub "merge-base" then
        (if mem y (in_base r) then quiet 0 r else quiet 1 r)
      else if String.eqb sub "ls-remote" then
        (if remote_reachable r then
           (if mem z (remote_heads r) then ok ("0a1b2c3d refs/heads/" ++ z) r
            else quiet 0 r)
         else failed 128 "fatal: unable to access the remote" r)
      else quiet 1 r
  | [_; sub; _; _; grep; _; _] =>
      if String.eqb sub "log" && log_finds grep (base_log r) then
        ok "commit 5e6f7a8b" r
      else quiet 0 r
  | _ => quiet 1 r
  end.

#[global] Instance demo_os : OS Repo := {|
  subprocess_run := git;
  path_exists p _ := String.eqb p "/repo";
  path_is_dir p _ := String.eqb p "/repo" || String.eqb p "/repo/.git";
  os_chdir p r := if String.eqb p "/repo" then Some r else None
|}.

(** Scenario A of the specification: [main] is checked out, [feature-x] is
    merged into [dev]. *)
Definition scenario_A : Repo := {|
  heads := [("dev", "d0d0d0d0d0"); ("feature-x", "f1f1f1f1f1"); ("main", "a2a2a2a2a2")];
  HEAD := "main";
  in_base := ["d0d0d0d0d0"; "f1f1f1f1f1"];
  upstreams := [];
  remote_heads := [];
  remote_reachable := true;
  base_log := []
|}.

Definition defaults : Config := {|
  PROTECTED := branch_set "main,master,develop,dev,release,staging,production";
  CRITICAL := branch_set "master,dev";
  BASE_BRANCH_FOR_COMMIT_CHECK := "dev"
|}.

Definition plain_args : Args := {|
  repo := "/repo"; remote := "origin"; base := None;
  dry_run := false; force := false; protect := [];
  fetch := false; check_upstream_missing := false;
  check_remote_missing := false; check_issue_closure := false
|}.

(** [--protect name ...] *)
Definition protecting (names : list string) : Args := {|
  repo := "/repo"; remote := "origin"; base := None;
  dry_run := false; force := false; protect := names;
  fetch := false; check_upstream_missing := false;
  check_remote_missing := false; check_issue_closure := false
|}.

(** [--dry-run] *)
Definition dry_args : Args := {|
  repo := "/repo"; remote := "origin"; base := None;
  dry_run := true; force := false; protect := [];
  fetch := false; check_upstream_missing := false;
  check_remote_missing := false; check_issue_closure := false
|}.

(** [--check-remote-missing] *)
Definition remote_check_args : Args := {|
  repo := "/repo"; remote := "origin"; base := None;
  dry_run := false; force := false; protect := [];
  fetch := false; check_upstream_missing := false;
  check_remote_missing := true; check_issue_closure := false
|}.

(** [--check-issue-closure] *)
Definition issue_args : Args := {|
  repo := "/repo"; remote := "origin"; base := None;
  dry_run := false; force := false; protect := [];
  fetch := false; check_upstream_missing := false;
  check_remote_missing := false; check_issue_closure := true
|}.

(** [--repo /nowhere] *)
Definition nowhere_args : Args := {|
  repo := "/nowhere"; remote := "origin"; base := None;
  dry_run := false; force := false; protect := [];
  fetch := false; check_upstream_missing := false;
  check_remote_missing := false; check_issue_closure := false
|}.

(** [feature-x] has a commit that [dev] does not have. *)
Definition unmerged : Repo := {|
  heads := [("dev", "d0d0d0d0d0"); ("feature-x", "f1f1f1f1f1"); ("main", "a2a2a2a2a2")];
  HEAD := "main";
  in_base := ["d0d0d0d0d0"];
  upstreams := [];
  remote_heads := [];
  remote_reachable := true;
  base_log := []
|}.

(** [feature-x] is merged and still on the remote, which cannot be reached. *)
Definition offline : Repo := {|
  heads := [("dev", "d0d0d0d0d0"); ("feature-x", "f1f1f1f1f1"); ("main", "a2a2a2a2a2")];
  HEAD := "main";
  in_base := ["d0d0d0d0d0"; "f1f1f1f1f1"];
  upstreams := [];
  remote_heads := ["feature-x"];
  remote_reachable := false;
  base_log := []
|}.

(** Scenario B of the specification, without the closing commit:
    [42-fix-bug] is merged, and no commit message closes issue 42. *)
Definition scenario_B_open : Repo := {|
  heads := [("42-fix-bug", "b4b4b4b4b4"); ("dev", "d0d0d0d0d0"); ("main", "a2a2a2a2a2")];
  HEAD := "main";
  in_base := ["d0d0d0d0d0"; "b4b4b4b4b4"];
  upstreams := [];
  remote_heads := [];
  remote_reachable := true;
  base_log := []
|}.

(** Scenario B of the specification: [42-fix-bug] is merged, and a commit
    of [dev] says [Fixes #42]. *)
Definition scenario_B : Repo := {|
  heads := [("42-fix-bug", "b4b4b4b4b4"); ("dev", "d0d0d0d0d0"); ("main", "a2a2a2a2a2")];
  HEAD := "main";
  in_base := ["d0d0d0d0d0"; "b4b4b4b4b4"];
  upstreams := [];
  remote_heads := [];
  remote_reachable := true;
  base_log := ["Fixes #42"]
|}.

(** [42-fix-bug] is merged, and the one message of [dev] that mentions 42
    quotes the pattern of the search itself. *)
Definition pattern_quoted : Repo := {|
  heads := [("42-fix-bug", "b4b4b4b4b4"); ("dev", "d0d0d0d0d0"); ("main", "a2a2a2a2a2")];
  HEAD := "main";
  in_base := ["d0d0d0d0d0"; "b4b4b4b4b4"];
  upstreams := [];
  remote_heads := [];
  remote_reachable := true;
  base_log := ["note (closes|closed|fixes|fixed|resolves|resolved) +#?42"]
|}.

(** Scenario C of the specification: [feature-x] is merged and still on the
    remote. *)
Definition scenario_C : Repo := {|
  heads := [("dev", "d0d0d0d0d0"); ("feature-x", "f1f1f1f1f1"); ("main", "a2a2a2a2a2")];
  HEAD := "main";
  in_base := ["d0d0d0d0d0"; "f1f1f1f1f1"];
  upstreams := [];
  remote_heads := ["feature-x"];
  remote_reachable := true;
  base_log := []
|}.

(** [PROTECTED_BRANCHES] set to commas and blanks only. *)
Definition blank_protected : gmap string string :=
  {[ "PROTECTED_BRANCHES" := " , " ]}.

(** [--check-upstream-missing] *)
Definition upstream_check_args : Args := {|
  repo := "/repo"; remote := "origin"; base := None;
  dry_run := false; force := false; protect := [];
  fetch := false; check_upstream_missing := true;
  check_remote_missing := false; check_issue_closure := false
|}.

(** [feature-x] is merged and tracks [origin/feature-x]. *)
Definition tracked : Repo := {|
  heads := [("dev", "d0d0d0d0d0"); ("feature-x", "f1f1f1f1f1"); ("main", "a2a2a2a2a2")];
  HEAD := "main";
  in_base := ["d0d0d0d0d0"; "f1f1f1f1f1"];
  upstreams := [("feature-x", "origin/feature-x")];
  remote_heads := ["feature-x"];
  remote_reachable := true;
  base_log := []
|}.

(** A repository seen from a checked-out branch that lacks some of the
    branches merged into the base: [git branch -d] compares with [HEAD],
    not with the base, and refuses these. *)
Record Checkout : Type := {
  repository : Repo;
  not_in_HEAD : list string
}.

Definition git_from_checkout (cmd : list string) (c : Checkout)
    : CompletedProcess * Checkout :=
  let refused :=
    match cmd with
    | [_; sub; opt; x] =>
        String.eqb sub "branch" && String.eqb opt "-d" && mem x (not_in_HEAD c)
    | _ => false
    end in
  if refused then
    ({| returncode := 1; stdout := "";
        stderr := "error: the branch is not fully merged" ++ String Py.LF "" |}, c)
  else
    let (p, r) := git cmd (repository c) in
    (p, {| repository := r; not_in_HEAD := not_in_HEAD c |}).

#[global] Instance checkout_os : OS Checkout := {|
  subprocess_run := git_from_checkout;
  path_exists p _ := String.eqb p "/repo";
  path_is_dir p _ := String.eqb p "/repo" || String.eqb p "/repo/.git";
  os_chdir p c := if String.eqb p "/repo" then Some c else None
|}.

(** Scenario A with [feature-x] merged into [dev] and not into [main],
    which is checked out. *)
Definition on_main : Checkout := {|
  repository := scenario_A;
  not_in_HEAD := ["feature-x"]
|}.

(** A repository in which some git commands cannot do their work, as when
    it is damaged or locked: a command whose subcommand is among [failing]
    ends with status 128. *)
Record Damaged : Type := {
  intact : Repo;
  failing : list string
}.

Definition git_damaged (cmd : list string) (d : Damaged)
    : CompletedProcess * Damaged :=
  let fails :=
    match cmd with
    | _ :: sub :: _ => mem sub (failing d)
    | _ => false
    end in
  if fails then
    ({| returncode := 128; stdout := "";
        stderr := "fatal: unable to read the repository" ++ String Py.LF "" |}, d)
  else
    let (p, r) := git cmd (intact d) in
    (p, {| intact := r; failing := failing d |}).

#[global] Instance damaged_os : OS Damaged := {|
  subprocess_run := git_damaged;
  path_exists p _ := String.eqb p "/repo";
  path_is_dir p _ := String.eqb p "/repo" || String.eqb p "/repo/.git";
  os_chdir p d := if String.eqb p "/repo" then Some d else None
|}.

(** Scenario A in which the branches cannot be listed. *)
Definition unlistable : Damaged := {|
  intact := scenario_A;
  failing := ["for-each-ref"]
|}.

End Demo.


(** [git branch -d name] or [git branch -D name]: the one command of the
    script that changes the repository's branches. *)
Definition is_deletion (cmd : list string) : bool :=
  match cmd with
  | [_; sub; opt; _] =>
      String.eqb sub "branch" && (String.eqb opt "-d" || String.eqb opt "-D")
  | _ => false
  end.

(** The deletions started. *)
Definition deletions (t : list event) : list (list string) :=
  List.filter is_deletion (commands t).

(** A line that begins with a tag such as [[SKIP]]. *)
Definition tagged (tag line : string) : Prop := Py.startswith line tag = true.

(** What a guard may do: pass on without a word, or decide with one line
    tagged [[SKIP]] or [[KEEP]] and [continue], or raise without a word; it
    never deletes. *)
Definition guard_outcome {World A : Type} (o : outcome World A) : Prop :=
  deletions (trace o) = []
  /\ match result o with
     | inl Continue =>
         exists line, printed (trace o) = [line]
                      /\ (tagged "[SKIP] " line \/ tagged "[KEEP] " line)
     | _ => printed (trace o) = []
     end.

(** The line that announces a deletion, and the line of a dry run. *)
Definition deletion_line (base_ref b tip : string) : string :=
  "[DEL ] " ++ b ++ " (tip " ++ Py.take 8 tip ++ " is in " ++ base_ref ++ ")".

Definition dry_run_line (a : Args) (b : string) : string :=
  "[DRY] " ++ Py.join " " (delete_command b (force a)).

(** What the loop body may do with a branch [b]: end with [continue] after
    one line tagged [[SKIP]] or [[KEEP]] and no deletion; or come to its end
    after the deletion line, followed by the dry-run line in a dry run and
    by the deletion itself otherwise; or raise, before any line, or after
    the deletion line when the deletion itself fails. *)
Definition branch_outcome {World : Type} (a : Args) (base_ref b : string)
    (o : outcome World unit) : Prop :=
  match result o with
  | inl Continue =>
      deletions (trace o) = []
      /\ exists line, printed (trace o) = [line]
                      /\ (tagged "[SKIP] " line \/ tagged "[KEEP] " line)
  | inr _ =>
      exists tip,
        printed (trace o)
        = deletion_line base_ref b tip
            :: (if dry_run a then [dry_run_line a b] else [])
        /\ deletions (trace o)
           = (if dry_run a then [] else [delete_command b (force a)])
  | inl (Raise _) =>
      (printed (trace o) = [] /\ deletions (trace o) = [])
      \/ (dry_run a = false
          /\ deletions (trace o) = [delete_command b (force a)]
          /\ exists tip, printed (trace o) = [deletion_line base_ref b tip])
  end.

(** Two states of the world that cannot be told apart: related by [R], they
    answer every command and every question about a path alike, and are
    related again afterwards. This is what "an unchanged repository" means
    to a second run. *)
Definition same_answers {World : Type} `{OS World}
    (R : World -> World -> Prop) : Prop :=
  (forall cmd w1 w2, R w1 w2 ->
     fst (subprocess_run cmd w1) = fst (subprocess_run cmd w2)
     /\ R (snd (subprocess_run cmd w1)) (snd (subprocess_run cmd w2)))
  /\ (forall path w1 w2, R w1 w2 ->
        path_exists path w1 = path_exists path w2
        /\ path_is_dir path w1 = path_is_dir path w2)
  /\ (forall path w1 w2, R w1 w2 ->
        match os_chdir path w1, os_chdir path w2 with
        | Some u1, Some u2 => R u1 u2
        | None, None => True
        | _, _ => False
        end).

(** Outcomes with the same result and the same events, in related worlds. *)
Definition alike {World A : Type} (R : World -> World -> Prop)
    (o1 o2 : outcome World A) : Prop :=
  result o1 = result o2 /\ trace o1 = trace o2 /\ R (final o1) (final o2).

(** A computation that behaves alike in worlds that cannot be told apart. *)
Definition respects {World A : Type} (R : World -> World -> Prop)
    (m : M World A) : Prop :=
  forall w1 w2, R w1 w2 -> alike R (m w1) (m w2).

(** A computation that starts no deletion. *)
Definition quiet {World A : Type} (m : M World A) : Prop :=
  forall w, deletions (trace (m w)) = [].

(** The world in which the survey asks git for the current branch: the one
    [os.chdir] left, after [git fetch] when [--fetch] is given (line 179; its
    status is not looked at). *)
Definition after_fetch {World : Type} `{OS World} (a : Args) (w : World) : World :=
  if fetch a
  then snd (subprocess_run ["git"; "fetch"; remote a; "--prune"] w)
  else w.

(** What git answers when the survey asks for the current branch (line 181)
    and then for the local branches (line 182); [w] is the world [os.chdir]
    left. *)
Definition shown {World : Type} `{OS World} (a : Args) (w : World)
    : CompletedProcess * World :=
  subprocess_run ["git"; "branch"; "--show-current"] (after_fetch a w).

Definition listed {World : Type} `{OS World} (a : Args) (w : World)
    : CompletedProcess * World :=
  subprocess_run ["git"; "for-each-ref"; "--format=%(refname:short)"; "refs/heads"]
    (snd (shown a w)).

(** The failures the [clean] command answers itself, each before any
    branch is looked at: the path given with [--repo] does not exist, is not
    a directory, or holds no [.git] directory; [git branch --show-current]
    or [git for-each-ref] ends with a status other than 0; the base
    reference does not resolve. *)
Inductive validation_failure {World : Type} `{OS World}
    (cfg : Config) (a : Args) (w : World) : Prop :=
| repo_path_missing :
    path_exists (repo a) w = false ->
    validation_failure cfg a w
| repo_not_a_directory :
    path_exists (repo a) w = true ->
    path_is_dir (repo a) w = false ->
    validation_failure cfg a w
| repo_without_git :
    path_exists (repo a) w = true ->
    path_is_dir (repo a) w = true ->
    path_is_dir (repo a ++ "/.git") w = false ->
    validation_failure cfg a w
| current_branch_unknown (w1 : World) :
    path_exists (repo a) w = true ->
    path_is_dir (repo a) w = true ->
    path_is_dir (repo a ++ "/.git") w = true ->
    os_chdir (repo a) w = Some w1 ->
    returncode (fst (shown a w1)) <> 0 ->
    validation_failure cfg a w
| branches_not_listed (w1 : World) :
    path_exists (repo a) w = true ->
    path_is_dir (repo a) w = true ->
    path_is_dir (repo a ++ "/.git") w = true ->
    os_chdir (repo a) w = Some w1 ->
    returncode (fst (shown a w1)) = 0 ->
    returncode (fst (listed a w1)) <> 0 ->
    validation_failure cfg a w
| base_unresolved (w1 : World) :
    path_exists (repo a) w = true ->
    path_is_dir (repo a) w = true ->
    path_is_dir (repo a ++ "/.git") w = true ->
    os_chdir (repo a) w = Some w1 ->
    returncode (fst (shown a w1)) = 0 ->
    returncode (fst (listed a w1)) = 0 ->
    Py.strip
      (stdout
         (fst (subprocess_run
                 ["git"; "rev-parse"; "--verify"; "--quiet"; base_of cfg a]
                 (snd (listed a w1))))) = "" ->
    validation_failure cfg a w.

(** ** Notions of the specification *)

(** The branch names the issue-closure check accepts, in the words of the
    specification: digits, then a separator ([-] or [_]), then anything,
    which for [.+] means one character that is not a line feed, and whatever
    follows it. [id] is the run of digits. *)
Inductive issue_pattern (id : string) : string -> Prop :=
| issue_pattern_intro (sep c : ascii) (rest : string) :
    id <> "" ->
    Forall (fun d => Py.isdigit d = true) (list_ascii_of_string id) ->
    sep = "-"%char \/ sep = "_"%char ->
    c <> Py.LF ->
    issue_pattern id (id ++ String sep (String c rest)).

(** A message that closes the issue [id], as the comment of line 122 and
    the specification read the pattern: somewhere in the message, in either
    case, one of the verbs, then white space, then [#] or not, then the id,
    ending as a word. *)
Definition closure_verbs : list string :=
  ["closes"; "closed"; "fixes"; "fixed"; "resolves"; "resolved"].

(** What follows [p] at the head of [s], letters compared in either case. *)
Fixpoint after_prefix (p s : string) : option string :=
  match p, s with
  | EmptyString, _ => Some s
  | String c p', String d s' =>
      if Ascii.eqb (Py.lower_char c) (Py.lower_char d) then after_prefix p' s'
      else None
  | String _ _, EmptyString => None
  end.

Definition is_word_char (c : ascii) : bool :=
  Py.isdigit c
  || (let n := Ascii.nat_of_ascii c in
      ((65 <=? n) && (n <=? 90) || (97 <=? n) && (n <=? 122) || (n =? 95))%nat).

Definition ends_word (s : string) : bool :=
  match s with
  | String c _ => negb (is_word_char c)
  | EmptyString => true
  end.

Definition without_hash (s : string) : string :=
  match s with
  | String c s' => if Ascii.eqb c "#" then s' else s
  | EmptyString => s
  end.

Definition marker_here (id s : string) : bool :=
  existsb
    (fun verb =>
       match after_prefix verb s with
       | Some (String c rest) =>
           Py.isspace c
           && match after_prefix id (without_hash (Py.lstrip rest)) with
              | Some tail => ends_word tail
              | None => false
              end
       | _ => false
       end)
    closure_verbs.

Fixpoint closure_marker (id s : string) : bool :=
  marker_here id s
  || match s with
     | String _ s' => closure_marker id s'
     | EmptyString => false
     end.





(** A name as git prints it on a line of its own: not empty, and without
    white space (git refuses blanks and control characters in the name of
    a reference). *)
Definition plain_name (n : string) : Prop :=
  n <> ""
  /\ Forall (fun c => Py.isspace c = false) (list_ascii_of_string n).

(** What a command prints for a list of names: each name, then a line
    feed. *)
Fixpoint listing (names : list string) : string :=
  match names with
  | [] => ""
  | n :: names' => n ++ String Py.LF (listing names')
  end.


(** The commands the [clean] command can start, each with the option it
    depends on; [base_ref] is the base of the run. *)
Inductive started_by (a : Args) (base_ref : string) : list string -> Prop :=
| started_fetch :
    fetch a = true ->
    started_by a base_ref ["git"; "fetch"; remote a; "--prune"]
| started_current :
    started_by a base_ref ["git"; "branch"; "--show-current"]
| started_listing :
    started_by a base_ref
      ["git"; "for-each-ref"; "--format=%(refname:short)"; "refs/heads"]
| started_base :
    started_by a base_ref ["git"; "rev-parse"; "--verify"; "--quiet"; base_ref]
| started_upstream (b : string) :
    check_upstream_missing a = true ->
    started_by a base_ref ["git"; "rev-parse"; "--abbrev-ref"; b ++ "@{upstream}"]
| started_log (b id : string) :
    check_issue_closure a = true ->
    issue_id_from_branch b = Some id ->
    started_by a base_ref (closure_query base_ref id)
| started_tip (b : string) :
    started_by a base_ref ["git"; "rev-parse"; b]
| started_ancestry (tip : string) :
    started_by a base_ref ["git"; "merge-base"; "--is-ancestor"; tip; base_ref]
| started_lookup (b : string) :
    check_remote_missing a = true ->
    started_by a base_ref ["git"; "ls-remote"; "--heads"; remote a; b]
| started_deletion (b : string) :
    dry_run a = false ->
    started_by a base_ref (delete_command b (force a)).

(** A computation that starts only commands that [P] allows. *)
Definition only {World A : Type} (P : list string -> Prop)
    (m : M World A) : Prop :=
  forall w, Forall P (commands (trace (m w))).


(** * Properties *)

Section Properties.
Context {World : Type} `{OS World}.

(** ** The guards that need no query *)

Lemma guard_current_fires (cur : string) (w : World) :
  guard_current cur cur w
  = {| result := inl Continue; final := w;
       trace := [Print ("[SKIP] " ++ cur ++ " (current)")] |}.
Proof.
  unfold guard_current, when. rewrite String.eqb_refl. reflexivity.
Qed.

Lemma guard_current_passes (cur b : string) (w : World) :
  b <> cur -> guard_current cur b w = ret tt w.
Proof.
  intros Hne. unfold guard_current, when.
  destruct (String.eqb_spec b cur) as [Heq | _]; [contradiction | reflexivity].
Qed.

Lemma guard_protected_fires (protected : gset string) (b : string) (w : World) :
  Py.lower b ∈ protected ->
  guard_protected protected b w
  = {| result := inl Continue; final := w;
       trace := [Print ("[SKIP] " ++ b ++ " (protected)")] |}.
Proof.
  intros Hin. unfold guard_protected, when.
  rewrite bool_decide_eq_true_2 by exact Hin. reflexivity.
Qed.

Lemma guard_protected_passes (protected : gset string) (b : string) (w : World) :
  Py.lower b ∉ protected -> guard_protected protected b w = ret tt w.
Proof.
  intros Hout. unfold guard_protected, when.
  rewrite bool_decide_eq_false_2 by exact Hout. reflexivity.
Qed.

Lemma guard_critical_fires (critical : gset string) (b : string) (w : World) :
  Py.lower b ∈ critical ->
  guard_critical critical b w
  = {| result := inl Continue; final := w;
       trace := [Print ("[SKIP] " ++ b ++ " (critical)")] |}.
Proof.
  intros Hin. unfold guard_critical, when.
  rewrite bool_decide_eq_true_2 by exact Hin. reflexivity.
Qed.

Lemma guard_critical_passes (critical : gset string) (b : string) (w : World) :
  Py.lower b ∉ critical -> guard_critical critical b w = ret tt w.
Proof.
  intros Hout. unfold guard_critical, when.
  rewrite bool_decide_eq_false_2 by exact Hout. reflexivity.
Qed.

(** Sequencing after a computation whose outcome is known. *)
Lemma bind_stops {A B} (m : M World A) (f : A -> M World B) (w : World) c :
  result (m w) = inl c ->
  bind m f w = {| result := inl c; final := final (m w); trace := trace (m w) |}.
Proof. intros Hr. unfold bind. rewrite Hr. reflexivity. Qed.

Lemma bind_goes_on {A B} (m : M World A) (f : A -> M World B) (w : World) a :
  result (m w) = inr a ->
  bind m f w = after (trace (m w)) (f a (final (m w))).
Proof. intros Hr. unfold bind. rewrite Hr. reflexivity. Qed.

Lemma bind_passes {A B} (m : M World A) (f : A -> M World B) (w : World) a :
  m w = ret a w -> bind m f w = f a w.
Proof.
  intros Hm. unfold bind, after. rewrite Hm. simpl.
  destruct (f a w); reflexivity.
Qed.

(** C1. The branch that is checked out is skipped with the reason
    "current" whatever the flags and the protected and critical sets are,
    and nothing else happens for it: no command is started, the world is
    left as it was, and the iteration ends there. *)
Theorem current_branch_always_skipped
    (protected critical : gset string) (cur base_ref : string) (a : Args)
    (w : World) :
  clean_branch protected critical cur base_ref a cur w
  = {| result := inl Continue; final := w;
       trace := [Print ("[SKIP] " ++ cur ++ " (current)")] |}.
Proof.
  unfold clean_branch.
  rewrite (bind_stops _ _ w Continue); rewrite guard_current_fires; reflexivity.
Qed.

Lemma not_current_falls_through
    (protected critical : gset string) (cur base_ref : string) (a : Args)
    (b : string) (w : World) :
  b <> cur ->
  clean_branch protected critical cur base_ref a b w
  = guards_after_current protected critical base_ref a b w.
Proof.
  intros Hne. unfold clean_branch.
  rewrite (bind_passes _ _ w tt) by (apply guard_current_passes, Hne).
  reflexivity.
Qed.

Lemma protected_branch_skipped
    (protected critical : gset string) (cur base_ref : string) (a : Args)
    (b : string) (w : World) :
  b <> cur ->
  Py.lower b ∈ protected ->
  clean_branch protected critical cur base_ref a b w
  = {| result := inl Continue; final := w;
       trace := [Print ("[SKIP] " ++ b ++ " (protected)")] |}.
Proof.
  intros Hne Hp. rewrite not_current_falls_through by exact Hne.
  unfold guards_after_current.
  rewrite (bind_stops _ _ w Continue); rewrite guard_protected_fires by exact Hp;
    reflexivity.
Qed.

Lemma critical_branch_skipped
    (protected critical : gset string) (cur base_ref : string) (a : Args)
    (b : string) (w : World) :
  b <> cur ->
  Py.lower b ∉ protected ->
  Py.lower b ∈ critical ->
  clean_branch protected critical cur base_ref a b w
  = {| result := inl Continue; final := w;
       trace := [Print ("[SKIP] " ++ b ++ " (critical)")] |}.
Proof.
  intros Hne Hp Hc. rewrite not_current_falls_through by exact Hne.
  unfold guards_after_current.
  rewrite (bind_passes _ _ w tt) by (apply guard_protected_passes, Hp).
  rewrite (bind_stops _ _ w Continue); rewrite guard_critical_fires by exact Hc;
    reflexivity.
Qed.

(** C2. A branch other than the current one whose lower-cased name is in the
    protected set or in the critical set is skipped, with the reason
    "protected" when it is in the protected set and "critical" otherwise;
    the iteration ends there, so no later guard runs: no command is started
    and the world is unchanged. *)
Theorem protected_or_critical_skipped
    (protected critical : gset string) (cur base_ref : string) (a : Args)
    (b : string) (w : World) :
  b <> cur ->
  Py.lower b ∈ protected \/ Py.lower b ∈ critical ->
  clean_branch protected critical cur base_ref a b w
  = {| result := inl Continue; final := w;
       trace := [Print ("[SKIP] " ++ b ++
                        (if bool_decide (Py.lower b ∈ protected)
                         then " (protected)" else " (critical)"))] |}.
Proof.
  intros Hne Hin.
  destruct (decide (Py.lower b ∈ protected)) as [Hp | Hp].
  - rewrite (bool_decide_eq_true_2 _ Hp).
    apply protected_branch_skipped; assumption.
  - rewrite (bool_decide_eq_false_2 _ Hp).
    destruct Hin as [Hin | Hc]; [contradiction |].
    apply critical_branch_skipped; assumption.
Qed.

(** C10. The current-branch guard compares the names as they are, the
    protected and critical guards compare lower-cased names. A branch that
    differs from the current branch in letter case only is therefore not
    stopped by the current-branch guard and goes on to the later guards,
    while the protected guard treats both names alike. *)
Theorem current_guard_is_case_sensitive
    (protected critical : gset string) (cur base_ref : string) (a : Args)
    (b : string) (w : World) :
  b <> cur ->
  Py.lower b = Py.lower cur ->
  guard_current cur b w = ret tt w
  /\ clean_branch protected critical cur base_ref a b w
     = guards_after_current protected critical base_ref a b w
  /\ (result (guard_protected protected b w) = inl Continue
      <-> result (guard_protected protected cur w) = inl Continue).
Proof.
  intros Hne Hlow. split; [| split].
  - apply guard_current_passes; exact Hne.
  - apply not_current_falls_through; exact Hne.
  - unfold guard_protected, when. rewrite Hlow.
    destruct (bool_decide (Py.lower cur ∈ protected)); simpl; tauto.
Qed.

(** ** The sets of the run *)

Lemma is_empty_false (s : string) : Py.is_empty s = false <-> s <> "".
Proof. destruct s; simpl; split; intros; congruence. Qed.

Lemma elem_of_name_set (x : string) (names : list string) :
  x ∈ name_set names
  <-> exists p, p ∈ names /\ Py.strip p <> "" /\ x = Py.lower (Py.strip p).
Proof.
  unfold name_set. rewrite elem_of_list_to_set, list_elem_of_In, in_map_iff.
  split.
  - intros (p & Hx & Hp). apply list_elem_of_In, list_elem_of_filter in Hp.
    destruct Hp as [Hne Hp]. exists p. rewrite <- is_empty_false. auto.
  - intros (p & Hp & Hne & Hx). exists p. split; [auto |].
    apply list_elem_of_In, list_elem_of_filter. rewrite is_empty_false. auto.
Qed.

(** C4, as the code has it. The names given with [--protect] (stripped,
    lower-cased, blank ones dropped) are added to the protected set; the
    critical set of the run is the configured one and nothing else. A branch
    named by an addition is therefore skipped as protected. *)
Theorem additions_join_protected_set
    (cfg : Config) (a : Args) (cur base_ref b p : string) (w : World) :
  p ∈ protect a ->
  Py.strip p <> "" ->
  Py.lower b = Py.lower (Py.strip p) ->
  b <> cur ->
  run_critical cfg a = CRITICAL cfg
  /\ run_protected cfg a = PROTECTED cfg ∪ name_set (protect a)
  /\ Py.lower b ∈ run_protected cfg a
  /\ clean_branch (run_protected cfg a) (run_critical cfg a) cur base_ref a b w
     = {| result := inl Continue; final := w;
          trace := [Print ("[SKIP] " ++ b ++ " (protected)")] |}.
Proof.
  intros Hp Hne Hlow Hcur.
  assert (Hin : Py.lower b ∈ run_protected cfg a).
  { unfold run_protected. apply elem_of_union_r, elem_of_name_set.
    exists p. auto. }
  repeat split; try exact Hin.
  apply protected_branch_skipped; assumption.
Qed.

(** ** The issue id of a branch name *)

Lemma append_cons (c : ascii) (s t : string) :
  String c s ++ t = String c (s ++ t).
Proof. reflexivity. Qed.

Lemma span_digits_sound (s ds rest : string) :
  span_digits s = (ds, rest) ->
  s = ds ++ rest
  /\ Forall (fun d => Py.isdigit d = true) (list_ascii_of_string ds)
  /\ match rest with
     | EmptyString => True
     | String c _ => Py.isdigit c = false
     end.
Proof.
  revert ds rest. induction s as [| c s IH]; intros ds rest Hs; simpl in Hs.
  - inversion Hs; subst. repeat split; constructor.
  - destruct (Py.isdigit c) eqn:Hc.
    + destruct (span_digits s) as [ds' rest'] eqn:Hs'.
      inversion Hs; subst. destruct (IH ds' rest eq_refl) as (-> & Hall & Hrest).
      repeat split; [| exact Hrest]. simpl. constructor; assumption.
    + inversion Hs; subst. repeat split; [constructor | exact Hc].
Qed.

Lemma span_digits_complete (ds rest : string) :
  Forall (fun d => Py.isdigit d = true) (list_ascii_of_string ds) ->
  match rest with
  | EmptyString => True
  | String c _ => Py.isdigit c = false
  end ->
  span_digits (ds ++ rest) = (ds, rest).
Proof.
  intros Hall Hrest. induction ds as [| d ds IH].
  - change ("" ++ rest) with rest. destruct rest as [| c r]; simpl.
    + reflexivity.
    + rewrite Hrest. reflexivity.
  - rewrite append_cons. simpl in Hall. inversion Hall as [| ? ? Hd Hds]; subst.
    simpl. rewrite Hd, (IH Hds). reflexivity.
Qed.

(** [issue_id_from_branch] finds an id exactly on the names of the pattern,
    and the id is the run of digits. *)
Lemma issue_id_from_branch_spec (b id : string) :
  issue_id_from_branch b = Some id <-> issue_pattern id b.
Proof.
  unfold issue_id_from_branch. split.
  - destruct (span_digits b) as [ds rest] eqn:Hs.
    apply span_digits_sound in Hs. destruct Hs as (-> & Hall & _).
    destruct ds as [| d ds]; [discriminate |].
    destruct rest as [| sep [| c rest]]; try discriminate.
    destruct ((Ascii.eqb sep "-" || Ascii.eqb sep "_")
              && negb (Ascii.eqb c Py.LF)) eqn:Hcond; [| discriminate].
    intros Hid; inversion Hid; subst.
    apply andb_true_iff in Hcond. destruct Hcond as [Hsep Hc].
    apply orb_true_iff in Hsep. apply negb_true_iff in Hc.
    constructor.
    + discriminate.
    + exact Hall.
    + destruct Hsep as [Hsep | Hsep]; apply Ascii.eqb_eq in Hsep; auto.
    + intros ->. rewrite Ascii.eqb_refl in Hc. discriminate.
  - intros Hp. destruct Hp as [sep c rest Hne Hall Hsep Hc].
    rewrite span_digits_complete.
    + destruct id as [| d ds]; [contradiction |].
      assert (Hs : (Ascii.eqb sep "-" || Ascii.eqb sep "_") = true).
      { destruct Hsep as [-> | ->]; reflexivity. }
      assert (Hl : Ascii.eqb c Py.LF = false).
      { apply Ascii.eqb_neq. exact Hc. }
      rewrite Hs, Hl. reflexivity.
    + exact Hall.
    + destruct Hsep as [-> | ->]; reflexivity.
Qed.

Lemma issue_id_from_branch_none (b : string) :
  issue_id_from_branch b = None <-> (forall id, ~ issue_pattern id b).
Proof.
  split.
  - intros Hn id Hp. apply issue_id_from_branch_spec in Hp. congruence.
  - intros Hall. destruct (issue_id_from_branch b) as [id |] eqn:Hb; [| reflexivity].
    apply issue_id_from_branch_spec in Hb. destruct (Hall id Hb).
Qed.

Lemma issue_id_not_empty (b id : string) :
  issue_id_from_branch b = Some id -> Py.is_empty id = false.
Proof.
  intros Hb. apply issue_id_from_branch_spec in Hb.
  destruct Hb as [sep c rest Hne _ _ _]. destruct id; [contradiction | reflexivity].
Qed.

(** ** The checks that query the repository *)

Lemma unprotected_falls_through
    (protected critical : gset string) (cur base_ref : string) (a : Args)
    (b : string) (w : World) :
  b <> cur ->
  Py.lower b ∉ protected ->
  Py.lower b ∉ critical ->
  clean_branch protected critical cur base_ref a b w
  = checks_and_retire a base_ref b w.
Proof.
  intros Hne Hp Hc. rewrite not_current_falls_through by exact Hne.
  unfold guards_after_current.
  rewrite (bind_passes _ _ w tt) by (apply guard_protected_passes, Hp).
  rewrite (bind_passes _ _ w tt) by (apply guard_critical_passes, Hc).
  reflexivity.
Qed.

Lemma run_unchecked (cmd : list string) (w : World) :
  run cmd false w
  = {| result := inr (Py.strip (stdout (fst (subprocess_run cmd w))));
       final := snd (subprocess_run cmd w);
       trace := [Ran cmd (fst (subprocess_run cmd w))] |}.
Proof. unfold run, bind, spawn. destruct (subprocess_run cmd w); reflexivity. Qed.

Lemma run_checked_ok (cmd : list string) (w : World) :
  returncode (fst (subprocess_run cmd w)) = 0 ->
  run cmd true w
  = {| result := inr (Py.strip (stdout (fst (subprocess_run cmd w))));
       final := snd (subprocess_run cmd w);
       trace := [Ran cmd (fst (subprocess_run cmd w))] |}.
Proof.
  intros Hrc. unfold run, bind, spawn.
  destruct (subprocess_run cmd w) as [p w']; simpl in *. rewrite Hrc. reflexivity.
Qed.

Lemma run_checked_fails (cmd : list string) (w : World) :
  returncode (fst (subprocess_run cmd w)) <> 0 ->
  run cmd true w
  = {| result :=
         inl (Raise (RuntimeError
                ("Command failed: " ++ Py.join " " cmd
                   ++ String Py.LF (Py.strip (stderr (fst (subprocess_run cmd w)))))));
       final := snd (subprocess_run cmd w);
       trace := [Ran cmd (fst (subprocess_run cmd w))] |}.
Proof.
  intros Hrc. unfold run, bind, spawn.
  destruct (subprocess_run cmd w) as [p w']; simpl in *.
  apply Z.eqb_neq in Hrc. rewrite Hrc. reflexivity.
Qed.

Lemma strip_blank_twice (s : string) :
  Py.strip s = "" -> Py.is_empty (Py.strip (Py.strip s)) = true.
Proof. intros ->. reflexivity. Qed.

Lemma re_escape_digits (id : string) :
  Forall (fun d => Py.isdigit d = true) (list_ascii_of_string id) ->
  Py.re_escape id = id.
Proof.
  induction id as [| d ds IH]; simpl; intros Hall; [reflexivity |].
  inversion Hall as [| ? ? Hd Hds]; subst. rewrite (IH Hds).
  assert (Hs : Py.re_special d = false).
  { unfold Py.isdigit in Hd. apply andb_true_iff in Hd. destruct Hd as [Hlo Hhi].
    apply Nat.leb_le in Hlo, Hhi.
    rewrite <- (Ascii.ascii_nat_embedding d).
    remember (Ascii.nat_of_ascii d) as n.
    assert (Hn : (n = 48 \/ n = 49 \/ n = 50 \/ n = 51 \/ n = 52 \/ n = 53
                 \/ n = 54 \/ n = 55 \/ n = 56 \/ n = 57)%nat) by lia.
    clear - Hn. intuition (subst; reflexivity). }
  rewrite Hs. reflexivity.
Qed.

(** X16. With the issue-closure check enabled, take a branch that reaches
    that guard: it is not the current branch, not protected, not critical,
    and the upstream guard lets it pass. If its name does not follow the
    pattern (digits, separator, anything), it is skipped with the reason
    "no issue id prefix for closure check". If it does, with issue id [id],
    and [git log base --regexp-ignore-case --grep=pattern -n 1] prints
    nothing, it is kept. What git finds with this pattern is git's matter:
    the statement is about what it prints. *)
Theorem issue_closure_guard_decides
    (protected critical : gset string) (cur base_ref : string) (a : Args)
    (b : string) (w : World) :
  check_issue_closure a = true ->
  b <> cur ->
  Py.lower b ∉ protected ->
  Py.lower b ∉ critical ->
  result (guard_upstream a b w) = inr tt ->
  let before := guard_upstream a b w in
  ((forall id, ~ issue_pattern id b) ->
   clean_branch protected critical cur base_ref a b w
   = {| result := inl Continue; final := final before;
        trace := trace before
                   ++ [Print ("[SKIP] " ++ b
                                ++ " (no issue id prefix for closure check)")] |})
  /\ (forall id,
        issue_pattern id b ->
        let query :=
          ["git"; "log"; base_ref; "--regexp-ignore-case";
           "--grep=(closes|closed|fixes|fixed|resolves|resolved)\s+#?"
             ++ id ++ "\b";
           "-n"; "1"] in
        let answer := subprocess_run query (final before) in
        Py.strip (stdout (fst answer)) = "" ->
        clean_branch protected critical cur base_ref a b w
        = {| result := inl Continue; final := snd answer;
             trace := trace before
                        ++ [Ran query (fst answer);
                            Print ("[KEEP] " ++ b ++ " (no issue-closure marker on "
                                     ++ base_ref ++ " for #" ++ id ++ ")")] |}).
Proof.
  intros Hflag Hne Hp Hc Hup before.
  rewrite unprotected_falls_through by assumption.
  unfold checks_and_retire. rewrite (bind_goes_on _ _ w tt Hup). fold before.
  unfold guard_issue_closure, when. rewrite Hflag.
  split.
  - intros Hnone. apply issue_id_from_branch_none in Hnone. rewrite Hnone.
    reflexivity.
  - intros id Hid Hblank.
    pose proof Hid as Hsome. apply issue_id_from_branch_spec in Hsome.
    rewrite Hsome, (issue_id_not_empty b id Hsome).
    assert (Hq : closure_query base_ref id
                 = ["git"; "log"; base_ref; "--regexp-ignore-case";
                    "--grep=(closes|closed|fixes|fixed|resolves|resolved)\s+#?"
                      ++ id ++ "\b";
                    "-n"; "1"]).
    { unfold closure_query, closure_pattern.
      destruct Hid as [sep c rest _ Hdigits _ _].
      rewrite (re_escape_digits id Hdigits). reflexivity. }
    rewrite <- Hq in Hblank |- *.
    unfold base_has_issue_closure, bind. rewrite run_unchecked. simpl.
    rewrite (strip_blank_twice _ Hblank). reflexivity.
Qed.

(** ** Laws of sequencing *)

Lemma bind_assoc {A B C} (m : M World A) (f : A -> M World B)
    (g : B -> M World C) (w : World) :
  bind (bind m f) g w = bind m (fun x => bind (f x) g) w.
Proof.
  unfold bind, after. destruct (m w) as [[c | a] w1 t1]; simpl; [reflexivity |].
  destruct (f a w1) as [[c | b] w2 t2]; simpl; [reflexivity |].
  rewrite <- app_assoc. reflexivity.
Qed.

Lemma bind_ext {A B} (m : M World A) (f g : A -> M World B) (w : World) :
  (forall x w', f x w' = g x w') -> bind m f w = bind m g w.
Proof.
  intros Hfg. unfold bind. destruct (result (m w)); [reflexivity |].
  rewrite Hfg. reflexivity.
Qed.

Lemma printed_app (t1 t2 : list event) :
  printed (t1 ++ t2) = (printed t1 ++ printed t2)%list.
Proof.
  induction t1 as [| e t1 IH]; simpl; [reflexivity |].
  destruct e; simpl; rewrite IH; reflexivity.
Qed.

Lemma commands_app (t1 t2 : list event) :
  commands (t1 ++ t2) = (commands t1 ++ commands t2)%list.
Proof.
  induction t1 as [| e t1 IH]; simpl; [reflexivity |].
  destruct e; simpl; rewrite IH; reflexivity.
Qed.

Lemma deletions_app (t1 t2 : list event) :
  deletions (t1 ++ t2) = (deletions t1 ++ deletions t2)%list.
Proof. unfold deletions. rewrite commands_app. apply List.filter_app. Qed.

(** ** What each guard may do *)

Lemma outcome_ret {A} (a : A) (w : World) : guard_outcome (ret a w).
Proof. split; reflexivity. Qed.

Lemma outcome_raise {A} (e : exn) (w : World) :
  guard_outcome (raise (A := A) e w).
Proof. split; reflexivity. Qed.

Lemma outcome_bind {A B} (m : M World A) (f : A -> M World B) (w : World) :
  guard_outcome (m w) ->
  (forall a w', guard_outcome (f a w')) ->
  guard_outcome (bind m f w).
Proof.
  intros [Hdel Hm] Hf. unfold bind.
  destruct (result (m w)) as [c | a] eqn:Hr.
  - split; simpl; [exact Hdel |]. exact Hm.
  - destruct (Hf a (final (m w))) as [Hdel' Hf'].
    unfold guard_outcome, after. simpl.
    rewrite deletions_app, printed_app, Hdel, Hdel', Hm. split; [reflexivity |].
    exact Hf'.
Qed.

Lemma outcome_spawn (cmd : list string) (w : World) :
  is_deletion cmd = false -> guard_outcome (spawn cmd w).
Proof.
  intros Hcmd. unfold spawn. destruct (subprocess_run cmd w) as [p w'].
  split; simpl; [| reflexivity]. unfold deletions. simpl. rewrite Hcmd. reflexivity.
Qed.

Lemma outcome_run (cmd : list string) (check : bool) (w : World) :
  is_deletion cmd = false -> guard_outcome (run cmd check w).
Proof.
  intros Hcmd. unfold run. apply outcome_bind; [apply outcome_spawn, Hcmd |].
  intros p w'. destruct (check && negb (Z.eqb (returncode p) 0)).
  - apply outcome_raise.
  - apply outcome_ret.
Qed.

Lemma tagged_append (tag rest : string) : tagged tag (tag ++ rest).
Proof.
  unfold tagged, Py.startswith. induction tag as [| c tag IH].
  - destruct rest; reflexivity.
  - rewrite append_cons. simpl. destruct (ascii_dec c c); [exact IH | contradiction].
Qed.


Lemma outcome_decision (tag rest : string) (w : World) :
  tag = "[SKIP] " \/ tag = "[KEEP] " ->
  guard_outcome (bind (print (tag ++ rest)) (fun _ => continue (A := unit)) w).
Proof.
  intros Htag. split; [reflexivity |]. simpl. eexists. split; [reflexivity |].
  destruct Htag as [-> | ->]; [left | right]; apply tagged_append.
Qed.

Ltac outcome_step :=
  first
    [ apply outcome_ret
    | apply outcome_raise
    | apply outcome_decision; auto
    | apply outcome_run; reflexivity
    | apply outcome_spawn; reflexivity
    | apply outcome_bind; [| intros ? ?]
    | match goal with
      | |- guard_outcome (when ?c _ _) => unfold when; destruct c
      | |- guard_outcome ((if ?c then _ else _) _) => destruct c
      | |- guard_outcome (match ?x with _ => _ end _) => destruct x
      end ].

Ltac guard_cases :=
  unfold guard_current, guard_protected, guard_critical, guard_upstream,
    guard_issue_closure, guard_ancestry, guard_remote, skip_no_issue_id,
    upstream_for, base_has_issue_closure, remote_branch_exists, tip_sha,
    commit_in_base;
  repeat outcome_step.

Lemma guard_current_outcome (cur b : string) (w : World) :
  guard_outcome (guard_current cur b w).
Proof. guard_cases. Qed.

Lemma guard_protected_outcome (protected : gset string) (b : string) (w : World) :
  guard_outcome (guard_protected protected b w).
Proof. guard_cases. Qed.

Lemma guard_critical_outcome (critical : gset string) (b : string) (w : World) :
  guard_outcome (guard_critical critical b w).
Proof. guard_cases. Qed.

Lemma guard_upstream_outcome (a : Args) (b : string) (w : World) :
  guard_outcome (guard_upstream a b w).
Proof. guard_cases. Qed.

Lemma guard_issue_closure_outcome (a : Args) (base_ref b : string) (w : World) :
  guard_outcome (guard_issue_closure a base_ref b w).
Proof. guard_cases. Qed.

Lemma guard_ancestry_outcome (base_ref b : string) (w : World) :
  guard_outcome (guard_ancestry base_ref b w).
Proof. guard_cases. Qed.

Lemma guard_remote_outcome (a : Args) (b : string) (w : World) :
  guard_outcome (guard_remote a b w).
Proof. guard_cases. Qed.

(** ** What the loop body may do *)

Lemma delete_command_is_deletion (b : string) (force : bool) :
  is_deletion (delete_command b force) = true.
Proof. destruct force; reflexivity. Qed.

Lemma retire_outcome (a : Args) (base_ref b tip : string) (w : World) :
  branch_outcome a base_ref b (retire a base_ref b tip w).
Proof.
  unfold branch_outcome, retire, delete_branch, bind, after, print, emit.
  destruct (dry_run a); cbn [result final trace].
  - exists tip. split; reflexivity.
  - unfold run, bind, after, spawn.
    destruct (subprocess_run (delete_command b (force a)) w) as [p w1].
    cbn [result final trace andb].
    destruct (Z.eqb (returncode p) 0);
      unfold deletions; cbn [result final trace negb ret raise abort printed
                               commands List.filter app];
      rewrite delete_command_is_deletion.
    + exists tip. split; reflexivity.
    + right. split; [reflexivity |]. split; [reflexivity |].
      exists tip; reflexivity.
Qed.

Lemma guard_then_branch {A} (a : Args) (base_ref b : string)
    (m : M World A) (f : A -> M World unit) (w : World) :
  guard_outcome (m w) ->
  (forall x w', branch_outcome a base_ref b (f x w')) ->
  branch_outcome a base_ref b (bind m f w).
Proof.
  intros [Hdel Hm] Hf. unfold bind.
  destruct (result (m w)) as [c | x] eqn:Hr.
  - unfold branch_outcome. simpl. destruct c as [| e]; auto.
  - specialize (Hf x (final (m w))). unfold branch_outcome, after in *. simpl.
    rewrite deletions_app, printed_app, Hdel, Hm. exact Hf.
Qed.

Lemma clean_branch_outcome
    (protected critical : gset string) (cur base_ref : string) (a : Args)
    (b : string) (w : World) :
  branch_outcome a base_ref b (clean_branch protected critical cur base_ref a b w).
Proof.
  unfold clean_branch, guards_after_current, checks_and_retire.
  apply guard_then_branch; [apply guard_current_outcome | intros _ w1].
  apply guard_then_branch; [apply guard_protected_outcome | intros _ w2].
  apply guard_then_branch; [apply guard_critical_outcome | intros _ w3].
  apply guard_then_branch; [apply guard_upstream_outcome | intros _ w4].
  apply guard_then_branch; [apply guard_issue_closure_outcome | intros _ w5].
  apply guard_then_branch; [apply guard_ancestry_outcome | intros tip w6].
  apply guard_then_branch; [apply guard_remote_outcome | intros _ w7].
  apply retire_outcome.
Qed.

(** C8, as the code has it. A branch that is skipped or kept gets one line,
    tagged [[SKIP]] or [[KEEP]]. A branch that is deleted gets the line
    tagged [[DEL ]], and in a dry run a second line after it, tagged [[DRY]],
    with the command that was not run. When the iteration is cut short by an
    exception, at most one line was written for the branch. *)
Theorem lines_of_a_branch
    (protected critical : gset string) (cur base_ref : string) (a : Args)
    (b : string) (w : World) :
  let o := clean_branch protected critical cur base_ref a b w in
  match result o with
  | inl Continue =>
      exists line, printed (trace o) = [line]
                   /\ (tagged "[SKIP] " line \/ tagged "[KEEP] " line)
  | inr _ =>
      exists tip,
        printed (trace o)
        = if dry_run a
          then ["[DEL ] " ++ b ++ " (tip " ++ Py.take 8 tip ++ " is in "
                  ++ base_ref ++ ")";
                "[DRY] git branch " ++ (if force a then "-D" else "-d")
                  ++ " " ++ b]
          else ["[DEL ] " ++ b ++ " (tip " ++ Py.take 8 tip ++ " is in "
                  ++ base_ref ++ ")"]
  | inl (Raise _) => (length (printed (trace o)) <= 1)%nat
  end.
Proof.
  intros o. pose proof (clean_branch_outcome protected critical cur base_ref a b w)
    as Ho. fold o in Ho. unfold branch_outcome in Ho.
  destruct (result o) as [[| e] | []].
  - destruct Ho as [_ Hline]. exact Hline.
  - destruct Ho as [[-> _] | (_ & _ & tip & ->)]; simpl; lia.
  - destruct Ho as (tip & -> & _). exists tip.
    unfold dry_run_line, deletion_line, delete_command, Py.join.
    destruct (dry_run a); [| reflexivity]. destruct (force a); reflexivity.
Qed.

(** ** The ancestry guard and the remote guard *)

Lemma checks_split (a : Args) (base_ref b : string) (w : World) :
  checks_and_retire a base_ref b w
  = bind (bind (guard_upstream a b) (fun _ => guard_issue_closure a base_ref b))
      (fun _ =>
         bind (guard_ancestry base_ref b)
           (fun tip => bind (guard_remote a b) (fun _ => retire a base_ref b tip)))
      w.
Proof. rewrite bind_assoc. reflexivity. Qed.

Lemma checks_split_at_remote (a : Args) (base_ref b : string) (w : World) :
  checks_and_retire a base_ref b w
  = bind (bind (guard_upstream a b)
            (fun _ => bind (guard_issue_closure a base_ref b)
                        (fun _ => guard_ancestry base_ref b)))
      (fun tip => bind (guard_remote a b) (fun _ => retire a base_ref b tip))
      w.
Proof.
  rewrite bind_assoc. unfold checks_and_retire.
  apply bind_ext. intros _ w'. rewrite bind_assoc. reflexivity.
Qed.

Lemma optional_checks_outcome (a : Args) (base_ref b : string) (w : World) :
  guard_outcome
    (bind (guard_upstream a b) (fun _ => guard_issue_closure a base_ref b) w).
Proof.
  apply outcome_bind; [apply guard_upstream_outcome |].
  intros _ w'. apply guard_issue_closure_outcome.
Qed.

Lemma bind_known {A B} (m : M World A) (f : A -> M World B) (w w1 : World)
    (a : A) (t : list event) :
  m w = {| result := inr a; final := w1; trace := t |} ->
  bind m f w = after t (f a w1).
Proof. intros Hm. unfold bind. rewrite Hm. reflexivity. Qed.

Lemma commit_in_base_answer (commit base : string) (w : World) :
  let query := ["git"; "merge-base"; "--is-ancestor"; commit; base] in
  commit_in_base commit base w
  = {| result := inr (Z.eqb (returncode (fst (subprocess_run query w))) 0);
       final := snd (subprocess_run query w);
       trace := [Ran query (fst (subprocess_run query w))] |}.
Proof.
  intros query. unfold commit_in_base, bind, spawn. fold query.
  destruct (subprocess_run query w); reflexivity.
Qed.

Lemma guard_ancestry_keeps (base_ref b : string) (w : World) :
  let resolved := subprocess_run ["git"; "rev-parse"; b] w in
  let tip := Py.strip (stdout (fst resolved)) in
  let oracle :=
    subprocess_run ["git"; "merge-base"; "--is-ancestor"; tip; base_ref]
      (snd resolved) in
  returncode (fst resolved) = 0 ->
  returncode (fst oracle) <> 0 ->
  guard_ancestry base_ref b w
  = {| result := inl Continue; final := snd oracle;
       trace := [Ran ["git"; "rev-parse"; b] (fst resolved);
                 Ran ["git"; "merge-base"; "--is-ancestor"; tip; base_ref]
                   (fst oracle);
                 Print ("[KEEP] " ++ b ++ " (tip " ++ Py.take 8 tip
                          ++ " NOT in " ++ base_ref ++ ")")] |}.
Proof.
  intros resolved tip oracle Hok Hno.
  unfold guard_ancestry, tip_sha.
  rewrite (bind_known _ _ _ _ _ _ (run_checked_ok _ w Hok)).
  rewrite (bind_known _ _ _ _ _ _ (commit_in_base_answer _ _ _)).
  fold resolved. fold tip. fold oracle.
  apply Z.eqb_neq in Hno. rewrite Hno. reflexivity.
Qed.

Lemma guard_ancestry_passes (base_ref b : string) (w : World) :
  let resolved := subprocess_run ["git"; "rev-parse"; b] w in
  let tip := Py.strip (stdout (fst resolved)) in
  let oracle :=
    subprocess_run ["git"; "merge-base"; "--is-ancestor"; tip; base_ref]
      (snd resolved) in
  returncode (fst resolved) = 0 ->
  returncode (fst oracle) = 0 ->
  guard_ancestry base_ref b w
  = {| result := inr tip; final := snd oracle;
       trace := [Ran ["git"; "rev-parse"; b] (fst resolved);
                 Ran ["git"; "merge-base"; "--is-ancestor"; tip; base_ref]
                   (fst oracle)] |}.
Proof.
  intros resolved tip oracle Hok Hyes.
  unfold guard_ancestry, tip_sha.
  rewrite (bind_known _ _ _ _ _ _ (run_checked_ok _ w Hok)).
  rewrite (bind_known _ _ _ _ _ _ (commit_in_base_answer _ _ _)).
  fold resolved. fold tip. fold oracle.
  rewrite Hyes. reflexivity.
Qed.

(** C6. Take a branch on which the ancestry oracle is consulted: it is not
    the current branch, not protected, not critical, the optional guards
    before let it pass, and its tip is resolved. If the oracle
    ([git merge-base --is-ancestor tip base]) answers with a status other
    than 0, the branch is kept: the one line written for it is the [[KEEP]]
    line, the iteration ends there, and no deletion is started. *)
Theorem tip_outside_base_is_kept
    (protected critical : gset string) (cur base_ref : string) (a : Args)
    (b : string) (w : World) :
  b <> cur ->
  Py.lower b ∉ protected ->
  Py.lower b ∉ critical ->
  let before :=
    bind (guard_upstream a b) (fun _ => guard_issue_closure a base_ref b) w in
  result before = inr tt ->
  let resolved := subprocess_run ["git"; "rev-parse"; b] (final before) in
  let tip := Py.strip (stdout (fst resolved)) in
  let oracle :=
    subprocess_run ["git"; "merge-base"; "--is-ancestor"; tip; base_ref]
      (snd resolved) in
  returncode (fst resolved) = 0 ->
  returncode (fst oracle) <> 0 ->
  let o := clean_branch protected critical cur base_ref a b w in
  result o = inl Continue
  /\ final o = snd oracle
  /\ trace o
     = (trace before
          ++ [Ran ["git"; "rev-parse"; b] (fst resolved);
              Ran ["git"; "merge-base"; "--is-ancestor"; tip; base_ref]
                (fst oracle);
              Print ("[KEEP] " ++ b ++ " (tip " ++ Py.take 8 tip
                       ++ " NOT in " ++ base_ref ++ ")")])%list
  /\ printed (trace o)
     = ["[KEEP] " ++ b ++ " (tip " ++ Py.take 8 tip ++ " NOT in "
          ++ base_ref ++ ")"]
  /\ deletions (trace o) = [].
Proof.
  intros Hne Hp Hc before Hbefore resolved tip oracle Hok Hno o.
  pose proof (guard_ancestry_keeps base_ref b (final before) Hok Hno) as Hkeep.
  fold resolved tip oracle in Hkeep.
  assert (Ho : result o = inl Continue /\ final o = snd oracle
               /\ trace o = (trace before ++ trace (guard_ancestry base_ref b (final before)))%list).
  { unfold o. rewrite unprotected_falls_through by assumption.
    rewrite checks_split.
    rewrite (bind_goes_on
               (bind (guard_upstream a b)
                  (fun _ => guard_issue_closure a base_ref b)) _ w tt Hbefore).
    fold before.
    rewrite (bind_stops _ _ (final before) Continue) by (rewrite Hkeep; reflexivity).
    rewrite Hkeep. repeat split. }
  destruct Ho as (Hres & Hfin & Htr). rewrite Hkeep in Htr. cbn [trace] in Htr.
  destruct (optional_checks_outcome a base_ref b w) as [Hdel Hpr].
  fold before in Hdel, Hpr. rewrite Hbefore in Hpr.
  repeat split; try assumption.
  - rewrite Htr, printed_app, Hpr. reflexivity.
  - rewrite Htr, deletions_app, Hdel. reflexivity.
Qed.

Lemma remote_branch_exists_answer (remote b : string) (w : World) :
  let query := ["git"; "ls-remote"; "--heads"; remote; b] in
  remote_branch_exists remote b w
  = {| result :=
         inr (negb (Py.is_empty
                      (Py.strip (Py.strip (stdout (fst (subprocess_run query w)))))));
       final := snd (subprocess_run query w);
       trace := [Ran query (fst (subprocess_run query w))] |}.
Proof.
  intros query. unfold remote_branch_exists.
  rewrite (bind_known _ _ _ _ _ _ (run_unchecked _ w)). reflexivity.
Qed.

Lemma delete_branch_trace (b : string) (force dry_run : bool) (w : World) :
  trace (delete_branch b force dry_run w)
  = if dry_run
    then [Print ("[DRY] git branch " ++ (if force then "-D" else "-d")
                   ++ " " ++ b)]
    else [Ran (delete_command b force)
            (fst (subprocess_run (delete_command b force) w))].
Proof.
  unfold delete_branch. destruct dry_run.
  - destruct force; reflexivity.
  - unfold run, spawn, bind, after.
    destruct (subprocess_run (delete_command b force) w) as [p w'].
    cbn [result final trace fst andb].
    destruct (negb (Z.eqb (returncode p) 0)); reflexivity.
Qed.

(** C7. With the remote check enabled, take a branch that reaches the
    remote guard, its tip being contained in the base. If the look-up on
    the remote fails (a status other than 0, nothing on standard output),
    the answer is [False], the same as for a branch the remote does not
    have: nothing is raised, the deletion line is written and the deletion
    goes ahead (it is only described in a dry run). *)
Theorem failed_lookup_reads_as_absent
    (protected critical : gset string) (cur base_ref : string) (a : Args)
    (b tip : string) (w : World) :
  check_remote_missing a = true ->
  b <> cur ->
  Py.lower b ∉ protected ->
  Py.lower b ∉ critical ->
  let before :=
    bind (guard_upstream a b)
      (fun _ => bind (guard_issue_closure a base_ref b)
                  (fun _ => guard_ancestry base_ref b)) w in
  result before = inr tip ->
  let query := ["git"; "ls-remote"; "--heads"; remote a; b] in
  let lookup := subprocess_run query (final before) in
  returncode (fst lookup) <> 0 ->
  Py.strip (stdout (fst lookup)) = "" ->
  let o := clean_branch protected critical cur base_ref a b w in
  let deletion := delete_branch b (force a) (dry_run a) (snd lookup) in
  result (remote_branch_exists (remote a) b (final before)) = inr false
  /\ result o = result deletion
  /\ final o = final deletion
  /\ trace o
     = (trace before
          ++ [Ran query (fst lookup);
              Print ("[DEL ] " ++ b ++ " (tip " ++ Py.take 8 tip ++ " is in "
                       ++ base_ref ++ ")")]
          ++ (if dry_run a
              then [Print ("[DRY] git branch " ++ (if force a then "-D" else "-d")
                             ++ " " ++ b)]
              else [Ran (delete_command b (force a))
                      (fst (subprocess_run (delete_command b (force a))
                              (snd lookup)))]))%list.
Proof.
  intros Hflag Hne Hp Hc before Hbefore query lookup _ Hblank o deletion.
  pose proof (remote_branch_exists_answer (remote a) b (final before)) as Hans.
  cbn zeta in Hans. fold query lookup in Hans.
  rewrite (strip_blank_twice _ Hblank) in Hans. cbn [negb] in Hans.
  split; [rewrite Hans; reflexivity |].
  assert (Hguard : guard_remote a b (final before)
                   = {| result := inr tt; final := snd lookup;
                        trace := [Ran query (fst lookup)] |}).
  { unfold guard_remote. rewrite Hflag.
    rewrite (bind_known _ _ _ _ _ _ Hans). reflexivity. }
  assert (Ho : o = after (trace before ++ [Ran query (fst lookup)])
                     (retire a base_ref b tip (snd lookup))).
  { unfold o. rewrite unprotected_falls_through by assumption.
    rewrite checks_split_at_remote.
    rewrite (bind_goes_on
               (bind (guard_upstream a b)
                  (fun _ => bind (guard_issue_closure a base_ref b)
                              (fun _ => guard_ancestry base_ref b)))
               _ w tip Hbefore).
    fold before. rewrite (bind_known _ _ _ _ _ _ Hguard).
    unfold after. cbn [result final trace]. rewrite <- app_assoc. reflexivity. }
  rewrite Ho. unfold retire, print, emit.
  rewrite (bind_known _ _ (snd lookup) (snd lookup) tt
             [Print ("[DEL ] " ++ b ++ " (tip " ++ Py.take 8 tip ++ " is in "
                       ++ base_ref ++ ")")] eq_refl).
  fold deletion. unfold after. cbn [result final trace].
  rewrite <- app_assoc. unfold deletion. rewrite delete_branch_trace.
  repeat split.
Qed.

(** ** Runs over worlds that cannot be told apart *)

Section Agreement.
Variable R : World -> World -> Prop.
Hypothesis HR : same_answers R.

Lemma respects_ret {A} (a : A) : respects R (ret a).
Proof. intros w1 w2 Hw. repeat split; assumption. Qed.

Lemma respects_abort {A} (c : control) : respects R (abort (A := A) c).
Proof. intros w1 w2 Hw. repeat split; assumption. Qed.

Lemma respects_emit (e : event) : respects R (emit e).
Proof. intros w1 w2 Hw. repeat split; assumption. Qed.

Lemma respects_bind {A B} (m : M World A) (f : A -> M World B) :
  respects R m -> (forall a, respects R (f a)) -> respects R (bind m f).
Proof.
  intros Hm Hf w1 w2 Hw. destruct (Hm w1 w2 Hw) as (Hres & Htr & Hfin).
  unfold bind. rewrite <- Hres.
  destruct (result (m w1)) as [c | a].
  - repeat split; assumption.
  - destruct (Hf a _ _ Hfin) as (Hres' & Htr' & Hfin').
    unfold alike, after. cbn [result final trace].
    rewrite Htr, Htr'. repeat split; assumption.
Qed.

Lemma respects_spawn (cmd : list string) : respects R (spawn cmd).
Proof.
  intros w1 w2 Hw. destruct HR as (Hrun & _ & _).
  destruct (Hrun cmd w1 w2 Hw) as [Hp Hw']. unfold spawn.
  destruct (subprocess_run cmd w1) as [p1 u1], (subprocess_run cmd w2) as [p2 u2].
  cbn [fst snd] in *. subst p2. repeat split; assumption.
Qed.

Lemma respects_try {A} (body : M World A) (handler : string -> M World A) :
  respects R body -> (forall msg, respects R (handler msg)) ->
  respects R (try_except_RuntimeError body handler).
Proof.
  intros Hb Hh w1 w2 Hw. destruct (Hb w1 w2 Hw) as (Hres & Htr & Hfin).
  unfold try_except_RuntimeError. rewrite <- Hres.
  destruct (result (body w1)) as [[| [msg | | code]] | a] eqn:Hr;
    try (unfold alike; rewrite <- Hres, Hr; repeat split; assumption).
  destruct (Hh msg _ _ Hfin) as (Hres' & Htr' & Hfin').
  unfold alike, after. cbn [result final trace].
  rewrite Htr, Htr'. repeat split; assumption.
Qed.

Lemma respects_iteration (body : M World unit) :
  respects R body -> respects R (iteration body).
Proof.
  intros Hb w1 w2 Hw. destruct (Hb w1 w2 Hw) as (Hres & Htr & Hfin).
  unfold iteration. rewrite <- Hres.
  destruct (result (body w1)) as [[| e] | []] eqn:Hr;
    try (unfold alike; rewrite <- Hres, Hr; repeat split; assumption).
  repeat split; assumption.
Qed.

Lemma respects_for_each {A} (l : list A) (body : A -> M World unit) :
  (forall x, respects R (body x)) -> respects R (for_each l body).
Proof.
  intros Hb. induction l as [| x l IH]; simpl.
  - apply respects_ret.
  - apply respects_bind; [apply respects_iteration, Hb | intros _; exact IH].
Qed.

Lemma respects_ensure_git_repo (path : string) :
  respects R (ensure_git_repo path).
Proof.
  intros w1 w2 Hw. destruct HR as (_ & Hpath & _). unfold ensure_git_repo.
  destruct (Hpath path w1 w2 Hw) as [_ <-].
  destruct (Hpath (path ++ "/.git") w1 w2 Hw) as [_ <-].
  destruct (negb (path_is_dir path w1));
    [| destruct (negb (path_is_dir (path ++ "/.git") w1))];
    repeat split; assumption.
Qed.

Lemma respects_chdir (path : string) : respects R (chdir path).
Proof.
  intros w1 w2 Hw. destruct HR as (_ & _ & Hcd). specialize (Hcd path w1 w2 Hw).
  unfold chdir.
  destruct (os_chdir path w1), (os_chdir path w2); try contradiction;
    repeat split; assumption.
Qed.

Lemma respects_check_repo_option (path : string) :
  respects R (check_repo_option path).
Proof.
  intros w1 w2 Hw. destruct HR as (_ & Hpath & _). unfold check_repo_option.
  destruct (Hpath path w1 w2 Hw) as [<- _].
  destruct (path_exists path w1); repeat split; assumption.
Qed.

Ltac respects_step :=
  first
    [ apply respects_ret
    | apply respects_abort
    | apply respects_emit
    | apply respects_spawn
    | apply respects_ensure_git_repo
    | apply respects_chdir
    | apply respects_check_repo_option
    | apply respects_bind; [| intros ?]
    | apply respects_try; [| intros ?]
    | apply respects_for_each; intros ?
    | match goal with
      | |- respects _ (when ?c _) => unfold when; destruct c
      | |- respects _ (if ?c then _ else _) => destruct c
      | |- respects _ (match ?x with _ => _ end) => destruct x
      end ].

Ltac respects_all :=
  unfold clean, preflight, survey, clean_branch, guards_after_current,
    checks_and_retire, retire, delete_branch, guard_current, guard_protected,
    guard_critical, guard_upstream, guard_issue_closure, guard_ancestry,
    guard_remote, skip_no_issue_id, upstream_for, base_has_issue_closure,
    remote_branch_exists, tip_sha, commit_in_base, current_branch,
    local_branches, run, print, echo_err, raise, continue;
  repeat respects_step.

Lemma respects_clean (cfg : Config) (a : Args) : respects R (clean cfg a).
Proof. respects_all. Qed.

Lemma respects_script (env : gmap string string) (a : Args) :
  respects R (script env a).
Proof.
  unfold script. destruct (load_config env) as [e | cfg].
  - apply respects_abort.
  - apply respects_clean.
Qed.

End Agreement.

(** ** A dry run deletes nothing *)

Lemma quiet_ret {A} (a : A) : quiet (World := World) (ret a).
Proof. intros w. reflexivity. Qed.

Lemma quiet_abort {A} (c : control) : quiet (World := World) (abort (A := A) c).
Proof. intros w. reflexivity. Qed.

Lemma quiet_print (line : string) : quiet (World := World) (print line).
Proof. intros w. reflexivity. Qed.

Lemma quiet_echo_err (line : string) : quiet (World := World) (echo_err line).
Proof. intros w. reflexivity. Qed.

Lemma quiet_bind {A B} (m : M World A) (f : A -> M World B) :
  quiet m -> (forall x, quiet (f x)) -> quiet (bind m f).
Proof.
  intros Hm Hf w. unfold bind. destruct (result (m w)) as [c | x].
  - apply Hm.
  - unfold after. cbn [trace]. rewrite deletions_app, Hm, Hf. reflexivity.
Qed.

Lemma quiet_run (cmd : list string) (check : bool) :
  is_deletion cmd = false -> quiet (run cmd check).
Proof. intros Hcmd w. apply (outcome_run cmd check w Hcmd). Qed.

Lemma quiet_try {A} (body : M World A) (handler : string -> M World A) :
  quiet body -> (forall msg, quiet (handler msg)) ->
  quiet (try_except_RuntimeError body handler).
Proof.
  intros Hb Hh w. unfold try_except_RuntimeError.
  destruct (result (body w)) as [[| [msg | | code]] | a]; try apply Hb.
  unfold after. cbn [trace]. rewrite deletions_app, Hb, Hh. reflexivity.
Qed.

Lemma quiet_iteration (body : M World unit) : quiet body -> quiet (iteration body).
Proof.
  intros Hb w. unfold iteration.
  destruct (result (body w)) as [[| e] | []]; apply Hb.
Qed.

Lemma quiet_for_each {A} (l : list A) (body : A -> M World unit) :
  (forall x, quiet (body x)) -> quiet (for_each l body).
Proof.
  intros Hb. induction l as [| x l IH]; simpl.
  - apply quiet_ret.
  - apply quiet_bind; [apply quiet_iteration, Hb | intros _; exact IH].
Qed.

Lemma quiet_survey (a : Args) : quiet (survey a).
Proof.
  unfold survey, current_branch, local_branches.
  apply quiet_bind.
  { intros w. unfold ensure_git_repo.
    destruct (negb (path_is_dir (repo a) w));
      [| destruct (negb (path_is_dir (repo a ++ "/.git") w))]; reflexivity. }
  intros _. apply quiet_bind.
  { intros w. unfold chdir. destruct (os_chdir (repo a) w); reflexivity. }
  intros _. apply quiet_bind.
  { unfold when. destruct (fetch a); [| apply quiet_ret].
    apply quiet_bind; [apply quiet_run; reflexivity | intros _; apply quiet_ret]. }
  intros _. apply quiet_bind; [apply quiet_run; reflexivity | intros cur].
  apply quiet_bind; [| intros branches; apply quiet_ret].
  apply quiet_bind; [apply quiet_run; reflexivity | intros out; apply quiet_ret].
Qed.

Lemma quiet_preflight (a : Args) (base_ref : string) : quiet (preflight a base_ref).
Proof.
  unfold preflight. apply quiet_bind.
  { apply quiet_try; [apply quiet_survey |].
    intros msg. apply quiet_bind; [apply quiet_echo_err | intros _; apply quiet_abort]. }
  intros found. apply quiet_bind; [apply quiet_run; reflexivity | intros resolved].
  apply quiet_bind; [| intros _; apply quiet_ret].
  unfold when. destruct (Py.is_empty resolved); [| apply quiet_ret].
  apply quiet_bind; [apply quiet_echo_err | intros _; apply quiet_abort].
Qed.

Lemma quiet_clean_branch_in_dry_run
    (protected critical : gset string) (cur base_ref : string) (a : Args)
    (b : string) :
  dry_run a = true ->
  quiet (World := World) (clean_branch protected critical cur base_ref a b).
Proof.
  intros Hdry w.
  pose proof (clean_branch_outcome protected critical cur base_ref a b w) as Ho.
  unfold branch_outcome in Ho. rewrite Hdry in Ho.
  destruct (result (clean_branch protected critical cur base_ref a b w))
    as [[| e] | []].
  - apply Ho.
  - destruct Ho as [[_ Hdel] | [Hno _]]; [exact Hdel | discriminate].
  - destruct Ho as (tip & _ & Hdel). exact Hdel.
Qed.

Lemma quiet_clean_in_dry_run (cfg : Config) (a : Args) :
  dry_run a = true -> quiet (World := World) (clean cfg a).
Proof.
  intros Hdry. unfold clean. apply quiet_bind.
  { intros w. unfold check_repo_option.
    destruct (path_exists (repo a) w); reflexivity. }
  intros _. apply quiet_bind; [apply quiet_preflight | intros found].
  apply quiet_for_each. intros b. apply quiet_clean_branch_in_dry_run, Hdry.
Qed.

(** C9. Two dry runs with the same environment and options, started in
    worlds that cannot be told apart (an unchanged repository: every query
    is answered the same), write the same lines, do the same things in the
    same order and end with the same status. A dry run starts no deletion,
    so it does not itself change what the next run will find. *)
Theorem dry_runs_agree
    (R : World -> World -> Prop) (env : gmap string string) (a : Args)
    (w1 w2 : World) :
  dry_run a = true ->
  same_answers R ->
  R w1 w2 ->
  printed (trace (script env a w1)) = printed (trace (script env a w2))
  /\ trace (script env a w1) = trace (script env a w2)
  /\ exit_status (result (script env a w1)) = exit_status (result (script env a w2))
  /\ deletions (trace (script env a w1)) = [].
Proof.
  intros Hdry HR Hw.
  destruct (respects_script R HR env a w1 w2 Hw) as (Hres & Htr & _).
  rewrite Hres, Htr. repeat split.
  rewrite <- Htr. unfold script. destruct (load_config env) as [e | cfg].
  - reflexivity.
  - apply quiet_clean_in_dry_run, Hdry.
Qed.

(** ** How the process ends *)

Lemma survey_not_a_directory (a : Args) (w : World) :
  path_is_dir (repo a) w = false ->
  survey a w
  = {| result := inl (Raise (RuntimeError ("Path does not exist: " ++ repo a)));
       final := w; trace := [] |}.
Proof.
  intros Hdir. unfold survey. rewrite (bind_stops _ _ w (Raise (RuntimeError
    ("Path does not exist: " ++ repo a))));
    unfold ensure_git_repo; rewrite Hdir; reflexivity.
Qed.

Lemma survey_not_a_repository (a : Args) (w : World) :
  path_is_dir (repo a) w = true ->
  path_is_dir (repo a ++ "/.git") w = false ->
  survey a w
  = {| result := inl (Raise (RuntimeError ("Not a git repo: " ++ repo a)));
       final := w; trace := [] |}.
Proof.
  intros Hdir Hgit. unfold survey. rewrite (bind_stops _ _ w (Raise (RuntimeError
    ("Not a git repo: " ++ repo a))));
    unfold ensure_git_repo; rewrite Hdir, Hgit; reflexivity.
Qed.

(** Past the checks of the path and [os.chdir], the survey is its two
    queries, made in the world the optional fetch leaves. *)
Lemma survey_reaches_git (a : Args) (w w1 : World) :
  path_is_dir (repo a) w = true ->
  path_is_dir (repo a ++ "/.git") w = true ->
  os_chdir (repo a) w = Some w1 ->
  let queries :=
    bind current_branch
      (fun cur => bind local_branches (fun branches => ret (cur, branches))) in
  result (survey a w) = result (queries (after_fetch a w1))
  /\ final (survey a w) = final (queries (after_fetch a w1)).
Proof.
  intros Hdir Hgit Hcd queries. unfold survey.
  rewrite (bind_known _ _ w w tt [])
    by (unfold ensure_git_repo; rewrite Hdir, Hgit; reflexivity).
  rewrite (bind_known _ _ w w1 tt [Chdir (repo a)])
    by (unfold chdir; rewrite Hcd; reflexivity).
  unfold after_fetch, when. destruct (fetch a).
  - rewrite (bind_known _ _ w1
               (snd (subprocess_run ["git"; "fetch"; remote a; "--prune"] w1)) tt
               [Ran ["git"; "fetch"; remote a; "--prune"]
                  (fst (subprocess_run ["git"; "fetch"; remote a; "--prune"] w1))])
      by (rewrite (bind_known _ _ _ _ _ _ (run_unchecked _ w1)); reflexivity).
    split; reflexivity.
  - rewrite (bind_known _ _ w1 w1 tt [] eq_refl). split; reflexivity.
Qed.


(** A status other than 0 of [git branch --show-current] makes the survey
    raise [RuntimeError]. *)
Lemma survey_current_branch_fails (a : Args) (w w1 : World) :
  path_is_dir (repo a) w = true ->
  path_is_dir (repo a ++ "/.git") w = true ->
  os_chdir (repo a) w = Some w1 ->
  returncode (fst (shown a w1)) <> 0 ->
  exists msg, result (survey a w) = inl (Raise (RuntimeError msg)).
Proof.
  intros Hdir Hgit Hcd Hrc.
  destruct (survey_reaches_git a w w1 Hdir Hgit Hcd) as [Hres _].
  rewrite Hres. unfold current_branch. unfold shown in Hrc.
  rewrite (bind_stops _ _ _ _ (f_equal result (run_checked_fails _ _ Hrc))).
  eexists. reflexivity.
Qed.

(** So does a status other than 0 of [git for-each-ref]. *)
Lemma survey_listing_fails (a : Args) (w w1 : World) :
  path_is_dir (repo a) w = true ->
  path_is_dir (repo a ++ "/.git") w = true ->
  os_chdir (repo a) w = Some w1 ->
  returncode (fst (shown a w1)) = 0 ->
  returncode (fst (listed a w1)) <> 0 ->
  exists msg, result (survey a w) = inl (Raise (RuntimeError msg)).
Proof.
  intros Hdir Hgit Hcd Hok Hrc.
  destruct (survey_reaches_git a w w1 Hdir Hgit Hcd) as [Hres _].
  rewrite Hres. unfold current_branch. unfold shown in Hok. unfold listed, shown in Hrc.
  rewrite (bind_known _ _ _ _ _ _ (run_checked_ok _ _ Hok)).
  unfold after. cbn [result].
  assert (Hl : exists msg,
             result
               (local_branches
                  (snd (subprocess_run ["git"; "branch"; "--show-current"]
                          (after_fetch a w1))))
             = inl (Raise (RuntimeError msg))).
  { unfold local_branches.
    rewrite (bind_stops _ _ _ _ (f_equal result (run_checked_fails _ _ Hrc))).
    eexists. reflexivity. }
  destruct Hl as [msg Hl]. exists msg.
  rewrite (bind_stops _ _ _ _ Hl). reflexivity.
Qed.

(** With both queries answered with status 0 the survey returns, in the
    world the second query leaves. *)
Lemma survey_succeeds (a : Args) (w w1 : World) :
  path_is_dir (repo a) w = true ->
  path_is_dir (repo a ++ "/.git") w = true ->
  os_chdir (repo a) w = Some w1 ->
  returncode (fst (shown a w1)) = 0 ->
  returncode (fst (listed a w1)) = 0 ->
  exists found,
    result (survey a w) = inr found
    /\ final (survey a w) = snd (listed a w1).
Proof.
  intros Hdir Hgit Hcd Hok Hok'.
  destruct (survey_reaches_git a w w1 Hdir Hgit Hcd) as [Hres Hfin].
  rewrite Hres, Hfin. unfold current_branch.
  pose proof Hok as Hshown. unfold shown in Hshown.
  pose proof Hok' as Hlisted. unfold listed, shown in Hlisted.
  rewrite (bind_known _ _ _ _ _ _ (run_checked_ok _ _ Hshown)).
  unfold local_branches. rewrite bind_assoc.
  rewrite (bind_known _ _ _ _ _ _ (run_checked_ok _ _ Hlisted)).
  eexists. split; reflexivity.
Qed.

Lemma survey_outcome (a : Args) (w : World) : guard_outcome (survey a w).
Proof.
  unfold survey, current_branch, local_branches.
  apply outcome_bind.
  { unfold ensure_git_repo.
    destruct (negb (path_is_dir (repo a) w));
      [| destruct (negb (path_is_dir (repo a ++ "/.git") w))];
      split; reflexivity. }
  intros _ w1. apply outcome_bind.
  { unfold chdir. destruct (os_chdir (repo a) w1); split; reflexivity. }
  intros _ w2. repeat outcome_step.
Qed.

Lemma clean_without_path (cfg : Config) (a : Args) (w : World) :
  path_exists (repo a) w = false ->
  clean cfg a w
  = {| result := inl (Raise (TyperExit 2)); final := w; trace := [] |}.
Proof.
  intros Hpath. unfold clean.
  rewrite (bind_stops _ _ w (Raise (TyperExit 2)));
    unfold check_repo_option; rewrite Hpath; reflexivity.
Qed.

Lemma clean_after_failed_survey (cfg : Config) (a : Args) (w : World) (msg : string) :
  path_exists (repo a) w = true ->
  result (survey a w) = inl (Raise (RuntimeError msg)) ->
  clean cfg a w
  = {| result := inl (Raise (TyperExit 2)); final := final (survey a w);
       trace := trace (survey a w) ++ [EchoErr msg] |}.
Proof.
  intros Hpath Hs. unfold clean.
  rewrite (bind_known _ _ w w tt [])
    by (unfold check_repo_option; rewrite Hpath; reflexivity).
  unfold after. cbn [app]. unfold preflight.
  set (handled := try_except_RuntimeError (survey a) _).
  assert (Hh : handled w
               = {| result := inl (Raise (TyperExit 2)); final := final (survey a w);
                    trace := trace (survey a w) ++ [EchoErr msg] |}).
  { unfold handled, try_except_RuntimeError. rewrite Hs. reflexivity. }
  rewrite (bind_stops _ _ w (Raise (TyperExit 2)));
    rewrite (bind_stops _ _ w (Raise (TyperExit 2))); rewrite Hh; reflexivity.
Qed.

Lemma clean_without_base (cfg : Config) (a : Args) (w : World)
    (found : string * list string) :
  let query := ["git"; "rev-parse"; "--verify"; "--quiet"; base_of cfg a] in
  let answer := subprocess_run query (final (survey a w)) in
  path_exists (repo a) w = true ->
  result (survey a w) = inr found ->
  Py.strip (stdout (fst answer)) = "" ->
  clean cfg a w
  = {| result := inl (Raise (TyperExit 2)); final := snd answer;
       trace := trace (survey a w)
                  ++ [Ran query (fst answer);
                      EchoErr ("Base ref not found: " ++ base_of cfg a)] |}.
Proof.
  intros query answer Hpath Hs Hblank. unfold clean.
  rewrite (bind_known _ _ w w tt [])
    by (unfold check_repo_option; rewrite Hpath; reflexivity).
  unfold after. cbn [app].
  assert (Hpre : preflight a (base_of cfg a) w
                 = {| result := inl (Raise (TyperExit 2)); final := snd answer;
                      trace := trace (survey a w)
                                 ++ [Ran query (fst answer);
                                     EchoErr ("Base ref not found: "
                                                ++ base_of cfg a)] |}).
  { unfold preflight.
    rewrite (bind_known _ _ w (final (survey a w)) found (trace (survey a w)))
      by (unfold try_except_RuntimeError; rewrite Hs;
          destruct (survey a w); cbn in *; congruence).
    rewrite (bind_known _ _ _ _ _ _ (run_unchecked _ _)).
    fold query. fold answer. rewrite Hblank. reflexivity. }
  rewrite (bind_stops _ _ w (Raise (TyperExit 2))); rewrite Hpre; reflexivity.
Qed.

Lemma load_config_raises_RuntimeError (env : gmap string string) (e : exn) :
  load_config env = inl e -> exists msg, e = RuntimeError msg.
Proof.
  unfold load_config.
  repeat match goal with
         | |- context [if ?c then _ else _] => destruct c
         end; intros Hload; inversion Hload; eauto.
Qed.

Lemma load_config_empty_set (env : gmap string string) :
  branch_set (getenv env "PROTECTED_BRANCHES"
                "main,master,develop,dev,release,staging,production") = ∅
  \/ branch_set (getenv env "CRITICAL_BRANCHES" "master,dev") = ∅ ->
  exists name, load_config env = inl (RuntimeError (empty_set_message name)).
Proof.
  intros Hempty. unfold load_config. case_bool_decide as Hp; [eauto |].
  destruct Hempty as [Hq | Hc]; [contradiction |].
  rewrite (bool_decide_eq_true_2 _ Hc). eauto.
Qed.

(** C3, as the code has it. Once the configuration is loaded, every failure
    the command checks for itself (see [validation_failure]) ends the
    process with status 2, before any line about a branch is written and
    with no deletion. A configuration that does not load, in particular a
    protected or critical set that comes out empty, raises [RuntimeError]
    while the module is loaded: the command never starts, nothing is caught,
    and the process ends with the status of an uncaught exception, 1. *)
Theorem exit_status_of_failures
    (env : gmap string string) (a : Args) (w : World) :
  let o := script env a w in
  (forall cfg,
     load_config env = inr cfg ->
     validation_failure cfg a w ->
     result o = inl (Raise (TyperExit 2))
     /\ exit_status (result o) = 2
     /\ printed (trace o) = []
     /\ deletions (trace o) = [])
  /\ (branch_set (getenv env "PROTECTED_BRANCHES"
                    "main,master,develop,dev,release,staging,production") = ∅
      \/ branch_set (getenv env "CRITICAL_BRANCHES" "master,dev") = ∅ ->
      exists name,
        result o = inl (Raise (RuntimeError (empty_set_message name)))
        /\ trace o = []
        /\ exit_status (result o) = 1).
Proof.
  intros o. split.
  - intros cfg Hcfg Hfail. unfold o, script. rewrite Hcfg.
    assert (Hcaught : forall msg,
               path_exists (repo a) w = true ->
               result (survey a w) = inl (Raise (RuntimeError msg)) ->
               result (clean cfg a w) = inl (Raise (TyperExit 2))
               /\ exit_status (result (clean cfg a w)) = 2
               /\ printed (trace (clean cfg a w)) = []
               /\ deletions (trace (clean cfg a w)) = []).
    { intros msg Hpath Hs.
      rewrite (clean_after_failed_survey cfg a w msg Hpath Hs).
      destruct (survey_outcome a w) as [Hd Hp]. rewrite Hs in Hp.
      cbn [result trace]. rewrite printed_app, deletions_app, Hd, Hp.
      repeat split. }
    destruct Hfail as [Hpath | Hpath Hdir | Hpath Hdir Hgit
                      | w1 Hpath Hdir Hgit Hcd Hrc
                      | w1 Hpath Hdir Hgit Hcd Hok Hrc
                      | w1 Hpath Hdir Hgit Hcd Hok Hok' Hblank].
    + rewrite clean_without_path by exact Hpath. repeat split.
    + apply (Hcaught _ Hpath (f_equal result (survey_not_a_directory a w Hdir))).
    + apply (Hcaught _ Hpath
               (f_equal result (survey_not_a_repository a w Hdir Hgit))).
    + destruct (survey_current_branch_fails a w w1 Hdir Hgit Hcd Hrc) as [msg Hs].
      apply (Hcaught msg Hpath Hs).
    + destruct (survey_listing_fails a w w1 Hdir Hgit Hcd Hok Hrc) as [msg Hs].
      apply (Hcaught msg Hpath Hs).
    + destruct (survey_succeeds a w w1 Hdir Hgit Hcd Hok Hok')
        as (found & Hs & Hfin).
      rewrite <- Hfin in Hblank.
      rewrite (clean_without_base cfg a w found Hpath Hs Hblank).
      destruct (survey_outcome a w) as [Hd Hp]. rewrite Hs in Hp.
      cbn [result trace]. rewrite printed_app, deletions_app, Hd, Hp.
      repeat split.
  - intros Hempty. destruct (load_config_empty_set env Hempty) as [name Hname].
    exists name. unfold o, script. rewrite Hname. repeat split.
Qed.

(** A branch whose tip cannot be resolved ends the run with an exception
    that nothing catches. *)
Lemma unresolved_tip_raises (base_ref b : string) (w : World) :
  returncode (fst (subprocess_run ["git"; "rev-parse"; b] w)) <> 0 ->
  exists msg,
    result (guard_ancestry base_ref b w) = inl (Raise (RuntimeError msg))
    /\ exit_status (inl (Raise (RuntimeError msg))) = 1.
Proof.
  intros Hrc. unfold guard_ancestry, tip_sha.
  rewrite (bind_stops _ _ w _ (f_equal result (run_checked_fails _ w Hrc))).
  eexists. split; reflexivity.
Qed.

(** ** When a deletion is started *)

Lemma clean_branch_on_current
    (protected critical : gset string) (cur base_ref : string) (a : Args)
    (w : World) :
  deletions (trace (clean_branch protected critical cur base_ref a cur w)) = [].
Proof.
  unfold clean_branch.
  rewrite (bind_stops _ _ w Continue); rewrite guard_current_fires; reflexivity.
Qed.

Lemma bind_result_inr {A B} (m : M World A) (f : A -> M World B) (w : World)
    (y : B) :
  result (bind m f w) = inr y ->
  exists x,
    result (m w) = inr x
    /\ result (f x (final (m w))) = inr y
    /\ trace (bind m f w) = (trace (m w) ++ trace (f x (final (m w))))%list.
Proof.
  unfold bind. destruct (result (m w)) as [c | x]; [discriminate |].
  intros Hy. exists x. repeat split. exact Hy.
Qed.

Lemma guard_ancestry_passed (base_ref b tip : string) (w : World) :
  result (guard_ancestry base_ref b w) = inr tip ->
  exists q p,
    trace (guard_ancestry base_ref b w)
    = [Ran ["git"; "rev-parse"; b] q;
       Ran ["git"; "merge-base"; "--is-ancestor"; tip; base_ref] p]
    /\ returncode q = 0
    /\ tip = Py.strip (stdout q)
    /\ returncode p = 0.
Proof.
  set (resolved := subprocess_run ["git"; "rev-parse"; b] w).
  set (found := Py.strip (stdout (fst resolved))).
  set (oracle := subprocess_run
                   ["git"; "merge-base"; "--is-ancestor"; found; base_ref]
                   (snd resolved)).
  destruct (Z.eq_dec (returncode (fst resolved)) 0) as [Hok | Hbad].
  - destruct (Z.eq_dec (returncode (fst oracle)) 0) as [Hyes | Hno].
    + rewrite (guard_ancestry_passes base_ref b w Hok Hyes).
      fold resolved found oracle. cbn [result trace]. intros Htip.
      inversion Htip; subst tip. exists (fst resolved), (fst oracle).
      repeat split; assumption.
    + rewrite (guard_ancestry_keeps base_ref b w Hok Hno). discriminate.
  - unfold guard_ancestry, tip_sha.
    rewrite (bind_stops _ _ w _ (f_equal result (run_checked_fails _ w Hbad))).
    discriminate.
Qed.

Lemma checks_before_remote_outcome (a : Args) (base_ref b : string) (w : World) :
  guard_outcome
    (bind (guard_upstream a b)
       (fun _ => bind (guard_issue_closure a base_ref b)
                   (fun _ => guard_ancestry base_ref b)) w).
Proof.
  apply outcome_bind; [apply guard_upstream_outcome | intros _ w1].
  apply outcome_bind; [apply guard_issue_closure_outcome | intros _ w2].
  apply guard_ancestry_outcome.
Qed.

Lemma deletion_conditions
    (protected critical : gset string) (cur base_ref : string) (a : Args)
    (b : string) (w : World) :
  let o := clean_branch protected critical cur base_ref a b w in
  deletions (trace o) <> [] ->
  b <> cur
  /\ (Py.lower b ∉ protected)
  /\ (Py.lower b ∉ critical)
  /\ dry_run a = false
  /\ deletions (trace o) = [delete_command b (force a)].
Proof.
  intros o Hdel.
  assert (Hne : b <> cur).
  { intros ->. apply Hdel. apply clean_branch_on_current. }
  assert (Hp : Py.lower b ∉ protected).
  { intros Hin. apply Hdel. unfold o.
    rewrite protected_branch_skipped by assumption. reflexivity. }
  assert (Hc : Py.lower b ∉ critical).
  { intros Hin. apply Hdel. unfold o.
    rewrite critical_branch_skipped by assumption. reflexivity. }
  repeat (split; [assumption |]).
  pose proof (clean_branch_outcome protected critical cur base_ref a b w) as Ho.
  fold o in Ho. unfold branch_outcome in Ho.
  destruct (result o) as [[| e] | []].
  - destruct Ho as [Hnone _]. contradiction.
  - destruct Ho as [[_ Hnone] | (Hdry & Hone & _)]; [contradiction | auto].
  - destruct Ho as (tip & _ & Hone). destruct (dry_run a); [contradiction | auto].
Qed.

Lemma deletion_follows_ancestry (a : Args) (base_ref b : string) (w : World) :
  let o := checks_and_retire a base_ref b w in
  deletions (trace o) <> [] ->
  exists q p earlier later,
    trace o
    = (earlier
         ++ Ran ["git"; "rev-parse"; b] q
         :: Ran ["git"; "merge-base"; "--is-ancestor"; Py.strip (stdout q);
                 base_ref] p
         :: later)%list
    /\ returncode q = 0
    /\ returncode p = 0.
Proof.
  intros o Hdel.
  set (before := bind (guard_upstream a b)
                   (fun _ => bind (guard_issue_closure a base_ref b)
                               (fun _ => guard_ancestry base_ref b)) w).
  assert (Heq : o = bind (fun _ => before)
                      (fun tip => bind (guard_remote a b)
                                    (fun _ => retire a base_ref b tip)) w).
  { unfold o. rewrite checks_split_at_remote. reflexivity. }
  destruct (checks_before_remote_outcome a base_ref b w) as [Hquiet _].
  fold before in Hquiet.
  destruct (result before) as [c | tip] eqn:Hres.
  { exfalso. apply Hdel. rewrite Heq. unfold bind. rewrite Hres. exact Hquiet. }
  assert (Htrace : exists rest, trace o = (trace before ++ rest)%list).
  { rewrite Heq. unfold bind, after. rewrite Hres. cbn [trace]. eauto. }
  destruct Htrace as [rest Htrace].
  unfold before in Hres.
  destruct (bind_result_inr _ _ _ _ Hres) as (u1 & _ & Hres1 & Htr1).
  destruct (bind_result_inr _ _ _ _ Hres1) as (u2 & _ & Hres2 & Htr2).
  destruct (guard_ancestry_passed _ _ _ _ Hres2) as (q & p & Hanc & Hq & Htip & Hp).
  exists q, p.
  exists (trace (guard_upstream a b w)
            ++ trace (guard_issue_closure a base_ref b
                        (final (guard_upstream a b w))))%list, rest.
  split; [| split; assumption].
  rewrite Htrace. unfold before. rewrite Htr1, Htr2, Hanc, Htip.
  rewrite <- !List.app_assoc. reflexivity.
Qed.

(** X1. The loop body starts a deletion only for a branch that is not the
    current one, whose lower-cased name is neither protected nor critical,
    and outside a dry run. Before it, [git rev-parse b] has answered with
    status 0, and right after that [git merge-base --is-ancestor] has
    answered with status 0 for the tip that [rev-parse] printed, against
    the base of the run. The deletion is then the one of that branch, once,
    with [-D] exactly when [--force] is given. *)
Theorem deletion_only_when_safe
    (protected critical : gset string) (cur base_ref : string) (a : Args)
    (b : string) (w : World) :
  let o := clean_branch protected critical cur base_ref a b w in
  deletions (trace o) <> [] ->
  b <> cur
  /\ (Py.lower b ∉ protected)
  /\ (Py.lower b ∉ critical)
  /\ dry_run a = false
  /\ deletions (trace o)
     = [["git"; "branch"; if force a then "-D" else "-d"; b]]
  /\ exists q p earlier later,
       trace o
       = (earlier
            ++ Ran ["git"; "rev-parse"; b] q
            :: Ran ["git"; "merge-base"; "--is-ancestor"; Py.strip (stdout q);
                    base_ref] p
            :: later)%list
       /\ returncode q = 0
       /\ returncode p = 0.
Proof.
  intros o Hdel.
  destruct (deletion_conditions protected critical cur base_ref a b w Hdel)
    as (Hne & Hp & Hc & Hdry & Hone).
  do 4 (split; [assumption |]). split; [exact Hone |].
  unfold o in *. rewrite unprotected_falls_through in * by assumption.
  apply deletion_follows_ancestry. exact Hdel.
Qed.

Lemma iteration_trace (body : M World unit) (w : World) :
  trace (iteration body w) = trace (body w).
Proof.
  unfold iteration. destruct (result (body w)) as [[| e] | []]; reflexivity.
Qed.

Lemma for_each_deletions {A} (l : list A) (body : A -> M World unit)
    (w : World) (cmd : list string) :
  In cmd (deletions (trace (for_each l body w))) ->
  exists x w', In x l /\ In cmd (deletions (trace (body x w'))).
Proof.
  revert w. induction l as [| x l IH]; intros w; simpl.
  - intros [].
  - unfold bind.
    destruct (result (iteration (body x) w)) as [c | []];
      cbn [trace after]; rewrite ?deletions_app, iteration_trace.
    + intros Hin. exists x, w. auto.
    + intros Hin. apply in_app_or in Hin. destruct Hin as [Hin | Hin].
      * exists x, w. auto.
      * destruct (IH _ Hin) as (y & w' & Hy & Hcmd). exists y, w'. auto.
Qed.

Lemma clean_deletion_origin
    (cfg : Config) (a : Args) (w : World) (cmd : list string) :
  In cmd (deletions (trace (clean cfg a w))) ->
  dry_run a = false
  /\ exists cur branches b,
       result (preflight a (base_of cfg a) w) = inr (cur, branches)
       /\ In b branches
       /\ b <> cur
       /\ (Py.lower b ∉ run_protected cfg a)
       /\ (Py.lower b ∉ run_critical cfg a)
       /\ cmd = delete_command b (force a).
Proof.
  intros Hin. unfold clean in Hin.
  destruct (path_exists (repo a) w) eqn:Hpath.
  2:{ rewrite (bind_stops _ _ w (Raise (TyperExit 2))) in Hin
        by (unfold check_repo_option; rewrite Hpath; reflexivity).
      unfold check_repo_option in Hin. rewrite Hpath in Hin. destruct Hin. }
  rewrite (bind_known _ _ w w tt []) in Hin
    by (unfold check_repo_option; rewrite Hpath; reflexivity).
  unfold after in Hin. cbn [trace app] in Hin. unfold bind in Hin.
  pose proof (quiet_preflight a (base_of cfg a) w) as Hquiet.
  destruct (result (preflight a (base_of cfg a) w)) as [c | [cur branches]] eqn:Hpre.
  { cbn [trace] in Hin. rewrite Hquiet in Hin. destruct Hin. }
  cbn [trace after fst snd] in Hin. rewrite deletions_app, Hquiet in Hin.
  cbn [app] in Hin.
  destruct (for_each_deletions _ _ _ _ Hin) as (b & w' & Hb & Hcmd).
  assert (Hdel : deletions
                   (trace (clean_branch (run_protected cfg a) (run_critical cfg a)
                             cur (base_of cfg a) a b w')) <> []).
  { intros Hnone. rewrite Hnone in Hcmd. destruct Hcmd. }
  destruct (deletion_conditions _ _ _ _ _ _ _ Hdel)
    as (Hne & Hp & Hc & Hdry & Hone).
  split; [exact Hdry |]. exists cur, branches, b.
  rewrite Hone in Hcmd. destruct Hcmd as [<- | []].
  repeat split; assumption.
Qed.

(** X2. Over a whole run of [clean], every deletion that is started names a
    branch of the list found before the loop, other than the current
    branch, whose lower-cased name is not in the configured protected set,
    not among the [--protect] names and not in the critical set; and no
    deletion is started in a dry run. *)
Theorem run_deletes_only_unprotected_branches
    (cfg : Config) (a : Args) (w : World) (cmd : list string) :
  In cmd (deletions (trace (clean cfg a w))) ->
  dry_run a = false
  /\ exists cur branches b,
       result (preflight a (base_of cfg a) w) = inr (cur, branches)
       /\ In b branches
       /\ b <> cur
       /\ (Py.lower b ∉ PROTECTED cfg)
       /\ (Py.lower b ∉ name_set (protect a))
       /\ (Py.lower b ∉ CRITICAL cfg)
       /\ cmd = ["git"; "branch"; if force a then "-D" else "-d"; b].
Proof.
  intros Hin.
  destruct (clean_deletion_origin cfg a w cmd Hin)
    as (Hdry & cur & branches & b & Hpre & Hb & Hne & Hp & Hc & Hcmd).
  split; [exact Hdry |]. exists cur, branches, b.
  unfold run_protected in Hp. rewrite not_elem_of_union in Hp.
  destruct Hp as [Hp1 Hp2]. repeat split; assumption.
Qed.

(** X3. Whatever the options of the run, no branch whose lower-cased name
    is in the configured protected set or in the configured critical set is
    deleted: [--protect] only adds names, and no flag removes one. *)
Theorem configured_branches_are_never_deleted
    (cfg : Config) (a : Args) (w : World) (b opt : string) :
  Py.lower b ∈ PROTECTED cfg \/ Py.lower b ∈ CRITICAL cfg ->
  ~ In ["git"; "branch"; opt; b] (deletions (trace (clean cfg a w))).
Proof.
  intros Hconf Hin.
  destruct (clean_deletion_origin cfg a w _ Hin)
    as (_ & cur & branches & b' & _ & _ & _ & Hp & Hc & Hcmd).
  unfold delete_command in Hcmd. inversion Hcmd; subst b'.
  destruct Hconf as [Hconf | Hconf].
  - apply Hp. unfold run_protected. apply elem_of_union_l. exact Hconf.
  - apply Hc. exact Hconf.
Qed.

(** ** The configured sets *)

Lemma lower_char_idempotent (c : ascii) :
  Py.lower_char (Py.lower_char c) = Py.lower_char c.
Proof. destruct c as [[] [] [] [] [] [] [] []]; reflexivity. Qed.

Lemma isspace_lower_char (c : ascii) :
  Py.isspace (Py.lower_char c) = Py.isspace c.
Proof. destruct c as [[] [] [] [] [] [] [] []]; reflexivity. Qed.

Lemma lower_idempotent (s : string) : Py.lower (Py.lower s) = Py.lower s.
Proof.
  induction s as [| c s IH]; simpl; [reflexivity |].
  rewrite lower_char_idempotent, IH. reflexivity.
Qed.

Lemma is_empty_lower (s : string) : Py.is_empty (Py.lower s) = Py.is_empty s.
Proof. destruct s; reflexivity. Qed.

Lemma lstrip_lower (s : string) : Py.lstrip (Py.lower s) = Py.lower (Py.lstrip s).
Proof.
  induction s as [| c s IH]; simpl; [reflexivity |].
  rewrite isspace_lower_char. destruct (Py.isspace c); [exact IH | reflexivity].
Qed.

Lemma rstrip_lower (s : string) : Py.rstrip (Py.lower s) = Py.lower (Py.rstrip s).
Proof.
  induction s as [| c s IH]; simpl; [reflexivity |].
  rewrite IH, is_empty_lower, isspace_lower_char.
  destruct (Py.is_empty (Py.rstrip s) && Py.isspace c); reflexivity.
Qed.

Lemma strip_lower (s : string) : Py.strip (Py.lower s) = Py.lower (Py.strip s).
Proof. unfold Py.strip. rewrite lstrip_lower, rstrip_lower. reflexivity. Qed.

Lemma rstrip_idempotent (s : string) : Py.rstrip (Py.rstrip s) = Py.rstrip s.
Proof.
  induction s as [| c s IH]; simpl; [reflexivity |].
  destruct (Py.is_empty (Py.rstrip s) && Py.isspace c) eqn:Hc; [reflexivity |].
  simpl. rewrite IH, Hc. reflexivity.
Qed.

Lemma lstrip_head (s : string) :
  match Py.lstrip s with
  | EmptyString => True
  | String c _ => Py.isspace c = false
  end.
Proof.
  induction s as [| c s IH]; simpl; [exact I |].
  destruct (Py.isspace c) eqn:Hc; [exact IH | exact Hc].
Qed.

Lemma rstrip_keeps_head (c : ascii) (s : string) :
  Py.isspace c = false -> Py.rstrip (String c s) = String c (Py.rstrip s).
Proof. intros Hc. simpl. rewrite Hc, andb_false_r. reflexivity. Qed.

Lemma lstrip_strip (s : string) : Py.lstrip (Py.strip s) = Py.strip s.
Proof.
  unfold Py.strip. pose proof (lstrip_head s) as Hh.
  destruct (Py.lstrip s) as [| c t]; [reflexivity |].
  rewrite rstrip_keeps_head by exact Hh. simpl. rewrite Hh. reflexivity.
Qed.

Lemma strip_idempotent (s : string) : Py.strip (Py.strip s) = Py.strip s.
Proof.
  unfold Py.strip at 1. rewrite lstrip_strip. unfold Py.strip.
  apply rstrip_idempotent.
Qed.

(** X4. Every name of a set read from a comma-separated setting, and every
    name added with [--protect], is in normal form: not empty, in lower
    case, and without white space at either end. So the guards, which look
    up the lower-cased branch name, compare like with like. *)
Theorem configured_names_are_normalised (names : list string) (x : string) :
  x ∈ name_set names ->
  x <> "" /\ Py.lower x = x /\ Py.strip x = x.
Proof.
  intros Hx. apply elem_of_name_set in Hx. destruct Hx as (p & _ & Hne & ->).
  split; [| split].
  - rewrite <- is_empty_false, is_empty_lower, is_empty_false. exact Hne.
  - apply lower_idempotent.
  - rewrite strip_lower, strip_idempotent. reflexivity.
Qed.

Lemma name_set_empty (names : list string) :
  name_set names = ∅ <-> (forall p, In p names -> Py.strip p = "").
Proof.
  split.
  - intros Hempty p Hp. destruct (Py.strip p) as [| c t] eqn:Hs; [reflexivity |].
    exfalso. apply (not_elem_of_empty (C := gset string) (Py.lower (Py.strip p))).
    rewrite <- Hempty. apply elem_of_name_set. exists p.
    rewrite list_elem_of_In, Hs. repeat split; [assumption | discriminate].
  - intros Hall. apply elem_of_equiv_empty_L. intros x Hx.
    apply elem_of_name_set in Hx. destruct Hx as (p & Hp & Hne & _).
    apply Hne, Hall, list_elem_of_In, Hp.
Qed.

(** X5. The configuration loads exactly when the protected setting and the
    critical setting each hold an entry that is not blank and the base
    setting is not blank; a setting that is present but blank does not fall
    back to its default. The loaded sets are then not empty and the base is
    not the empty string. *)
Theorem load_config_succeeds_exactly (env : gmap string string) :
  let protected_value :=
    getenv env "PROTECTED_BRANCHES"
      "main,master,develop,dev,release,staging,production" in
  let critical_value := getenv env "CRITICAL_BRANCHES" "master,dev" in
  let base_value := getenv env "BASE_BRANCH_FOR_COMMIT_CHECK" "dev" in
  ((exists cfg, load_config env = inr cfg)
   <-> (exists p, In p (Py.split "," protected_value) /\ Py.strip p <> "")
       /\ (exists p, In p (Py.split "," critical_value) /\ Py.strip p <> "")
       /\ Py.strip base_value <> "")
  /\ (forall cfg,
        load_config env = inr cfg ->
        PROTECTED cfg <> ∅ /\ CRITICAL cfg <> ∅
        /\ BASE_BRANCH_FOR_COMMIT_CHECK cfg <> ""
        /\ BASE_BRANCH_FOR_COMMIT_CHECK cfg = Py.strip base_value).
Proof.
  intros protected_value critical_value base_value.
  assert (Hnonempty : forall v,
             branch_set v <> ∅
             <-> exists p, In p (Py.split "," v) /\ Py.strip p <> "").
  { intros v. unfold branch_set. rewrite name_set_empty. split.
    - intros Hno.
      destruct (decide (Exists (fun p => Py.strip p <> "") (Py.split "," v)))
        as [He | Hn].
      + apply List.Exists_exists in He. exact He.
      + exfalso. apply Hno. intros p Hp.
        destruct (string_dec (Py.strip p) "") as [Hs | Hs]; [exact Hs |].
        exfalso. apply Hn. apply List.Exists_exists. eauto.
    - intros (p & Hp & Hne) Hall. apply Hne, Hall, Hp. }
  unfold load_config. fold protected_value critical_value base_value.
  rewrite <- !Hnonempty. rewrite <- is_empty_false.
  destruct (decide (branch_set protected_value = ∅)) as [Hp | Hp].
  { rewrite (bool_decide_eq_true_2 _ Hp). split.
    - split; [intros [cfg Hcfg]; discriminate | intros (Hne & _); contradiction].
    - intros cfg Hcfg. discriminate. }
  rewrite (bool_decide_eq_false_2 _ Hp).
  destruct (decide (branch_set critical_value = ∅)) as [Hc | Hc].
  { rewrite (bool_decide_eq_true_2 _ Hc). split.
    - split; [intros [cfg Hcfg]; discriminate | intros (_ & Hne & _); contradiction].
    - intros cfg Hcfg. discriminate. }
  rewrite (bool_decide_eq_false_2 _ Hc).
  destruct (Py.is_empty (Py.strip base_value)) eqn:Hb.
  { split.
    - split; [intros [cfg Hcfg]; discriminate | intros (_ & _ & Hne); discriminate].
    - intros cfg Hcfg. discriminate. }
  split.
  - split; [intros _; auto | intros _; eauto].
  - intros cfg Hcfg. inversion Hcfg; subst cfg. cbn.
    repeat split; try assumption. apply is_empty_false. exact Hb.
Qed.

(** ** The optional guards, case by case *)

(** X6. With the upstream check enabled, the guard lets a branch pass
    exactly when [git rev-parse --abbrev-ref b@{upstream}] prints something
    that does not hold [fatal:] and begins with the remote's name and a
    slash; in every other case, whatever the status of the command, the
    branch is skipped. The guard raises nothing and starts this one
    command. *)
Theorem upstream_guard_decides (a : Args) (b : string) (w : World) :
  check_upstream_missing a = true ->
  let query := ["git"; "rev-parse"; "--abbrev-ref"; b ++ "@{upstream}"] in
  let answer := subprocess_run query w in
  let out := Py.strip (stdout (fst answer)) in
  guard_upstream a b w
  = if negb (Py.is_empty out) && negb (Py.contains "fatal:" out)
       && Py.startswith out (remote a ++ "/")
    then {| result := inr tt; final := snd answer;
            trace := [Ran query (fst answer)] |}
    else {| result := inl Continue; final := snd answer;
            trace := [Ran query (fst answer);
                      Print ("[SKIP] " ++ b ++ " (local-only or non-"
                               ++ remote a ++ " upstream)")] |}.
Proof.
  intros Hflag query answer out.
  unfold guard_upstream, when. rewrite Hflag. unfold upstream_for.
  rewrite bind_assoc.
  rewrite (bind_known _ _ _ _ _ _ (run_unchecked _ w)).
  fold query answer out. unfold bind at 1. cbn [ret result final trace].
  unfold not_tracking.
  destruct (Py.is_empty out) eqn:He; cbn [negb andb orb]; [reflexivity |].
  destruct (Py.contains "fatal:" out); cbn [negb andb]; [reflexivity |].
  rewrite He. cbn [orb].
  destruct (Py.startswith out (remote a ++ "/")); reflexivity.
Qed.

(** X7. With the issue-closure check enabled and a branch name that carries
    an issue id, the guard lets the branch pass exactly when the search of
    the base history prints something that is not blank; the status of
    [git log] plays no part, and nothing is raised. *)
Theorem issue_closure_guard_passes_on_a_hit
    (a : Args) (base_ref b id : string) (w : World) :
  check_issue_closure a = true ->
  issue_id_from_branch b = Some id ->
  let answer := subprocess_run (closure_query base_ref id) w in
  guard_issue_closure a base_ref b w
  = if Py.is_empty (Py.strip (stdout (fst answer)))
    then {| result := inl Continue; final := snd answer;
            trace := [Ran (closure_query base_ref id) (fst answer);
                      Print ("[KEEP] " ++ b ++ " (no issue-closure marker on "
                               ++ base_ref ++ " for #" ++ id ++ ")")] |}
    else {| result := inr tt; final := snd answer;
            trace := [Ran (closure_query base_ref id) (fst answer)] |}.
Proof.
  intros Hflag Hid answer.
  unfold guard_issue_closure, when. rewrite Hflag, Hid.
  rewrite (issue_id_not_empty b id Hid).
  unfold base_has_issue_closure. rewrite bind_assoc.
  rewrite (bind_known _ _ _ _ _ _ (run_unchecked _ w)).
  fold answer. unfold bind at 1. cbn [ret result final trace].
  rewrite strip_idempotent.
  destruct (Py.is_empty (Py.strip (stdout (fst answer)))); reflexivity.
Qed.

(** X8. The remote guard asks the remote only when the remote check is
    enabled. Enabled, it keeps the branch exactly when [git ls-remote
    --heads remote b] prints something that is not blank; disabled, it
    starts no command at all. *)
Theorem remote_guard_decides (a : Args) (b : string) (w : World) :
  let query := ["git"; "ls-remote"; "--heads"; remote a; b] in
  let answer := subprocess_run query w in
  guard_remote a b w
  = if check_remote_missing a
    then
      if Py.is_empty (Py.strip (stdout (fst answer)))
      then {| result := inr tt; final := snd answer;
              trace := [Ran query (fst answer)] |}
      else {| result := inl Continue; final := snd answer;
              trace := [Ran query (fst answer);
                        Print ("[KEEP] " ++ b ++ " (exists on "
                                 ++ remote a ++ ")")] |}
    else {| result := inr tt; final := w; trace := [] |}.
Proof.
  intros query answer. unfold guard_remote.
  destruct (check_remote_missing a); [| reflexivity].
  rewrite (bind_known _ _ _ _ _ _ (remote_branch_exists_answer _ _ w)).
  fold query answer. rewrite strip_idempotent.
  destruct (Py.is_empty (Py.strip (stdout (fst answer)))); reflexivity.
Qed.

(** X9. The default mode of the docstring: with the three optional checks
    off, a branch that is not current, protected or critical, whose tip
    resolves and is contained in the base, gets the deletion line and is
    deleted ([-d], or [-D] with [--force]; only described in a dry run). Two
    queries are made for it and nothing else. *)
Theorem merged_branch_is_retired
    (protected critical : gset string) (cur base_ref : string) (a : Args)
    (b : string) (w : World) :
  b <> cur ->
  Py.lower b ∉ protected ->
  Py.lower b ∉ critical ->
  check_upstream_missing a = false ->
  check_issue_closure a = false ->
  check_remote_missing a = false ->
  let resolved := subprocess_run ["git"; "rev-parse"; b] w in
  let tip := Py.strip (stdout (fst resolved)) in
  let oracle :=
    subprocess_run ["git"; "merge-base"; "--is-ancestor"; tip; base_ref]
      (snd resolved) in
  returncode (fst resolved) = 0 ->
  returncode (fst oracle) = 0 ->
  let o := clean_branch protected critical cur base_ref a b w in
  let deletion := delete_branch b (force a) (dry_run a) (snd oracle) in
  result o = result deletion
  /\ final o = final deletion
  /\ trace o
     = ([Ran ["git"; "rev-parse"; b] (fst resolved);
         Ran ["git"; "merge-base"; "--is-ancestor"; tip; base_ref] (fst oracle);
         Print ("[DEL ] " ++ b ++ " (tip " ++ Py.take 8 tip ++ " is in "
                  ++ base_ref ++ ")")]
          ++ (if dry_run a
              then [Print ("[DRY] git branch " ++ (if force a then "-D" else "-d")
                             ++ " " ++ b)]
              else [Ran (delete_command b (force a))
                      (fst (subprocess_run (delete_command b (force a))
                              (snd oracle)))]))%list.
Proof.
  intros Hne Hp Hc Hup Hissue Hremote resolved tip oracle Hok Hyes o deletion.
  assert (Ho : o = after [Ran ["git"; "rev-parse"; b] (fst resolved);
                          Ran ["git"; "merge-base"; "--is-ancestor"; tip; base_ref]
                            (fst oracle)]
                     (retire a base_ref b tip (snd oracle))).
  { unfold o. rewrite unprotected_falls_through by assumption.
    unfold checks_and_retire.
    rewrite (bind_known _ _ w w tt [])
      by (unfold guard_upstream; rewrite Hup; reflexivity).
    rewrite (bind_known _ _ w w tt [])
      by (unfold guard_issue_closure; rewrite Hissue; reflexivity).
    rewrite (bind_known _ _ _ _ _ _ (guard_ancestry_passes base_ref b w Hok Hyes)).
    fold resolved tip oracle.
    rewrite (bind_known _ _ (snd oracle) (snd oracle) tt [])
      by (unfold guard_remote; rewrite Hremote; reflexivity).
    unfold after. cbn [result final trace app]. reflexivity. }
  rewrite Ho. unfold retire, print, emit.
  rewrite (bind_known _ _ (snd oracle) (snd oracle) tt
             [Print ("[DEL ] " ++ b ++ " (tip " ++ Py.take 8 tip ++ " is in "
                       ++ base_ref ++ ")")] eq_refl).
  fold deletion. unfold after. cbn [result final trace app].
  unfold deletion. rewrite delete_branch_trace. repeat split.
Qed.

(** ** How a run can end *)

Section Endings.
Variable P : control -> Prop.
Hypothesis P_RuntimeError : forall msg, P (Raise (RuntimeError msg)).






End Endings.












(** ** Reading what git prints *)

Lemma linebreak_is_space (c : ascii) :
  Py.isspace c = false -> Py.is_linebreak c = false.
Proof. destruct c as [[] [] [] [] [] [] [] []]; vm_compute; congruence. Qed.

Lemma rstrip_without_space (n : string) :
  Forall (fun c => Py.isspace c = false) (list_ascii_of_string n) ->
  Py.rstrip n = n.
Proof.
  induction n as [| c n IH]; simpl; intros Hall; [reflexivity |].
  inversion Hall as [| ? ? Hc Hn]; subst.
  rewrite (IH Hn), Hc, andb_false_r. reflexivity.
Qed.

Lemma rstrip_after_prefix (s t : string) :
  Py.rstrip t <> "" -> Py.rstrip (s ++ t) = s ++ Py.rstrip t.
Proof.
  intros Hne. induction s as [| c s IH]; [reflexivity |].
  rewrite !append_cons. simpl. rewrite IH.
  destruct (s ++ Py.rstrip t) as [| d u] eqn:Hst; [| reflexivity].
  destruct s; [| discriminate]. simpl in Hst. contradiction.
Qed.

Lemma rstrip_final_space (t : string) (c : ascii) :
  Py.isspace c = true -> Py.rstrip (t ++ String c "") = Py.rstrip t.
Proof.
  intros Hc. induction t as [| d t IH].
  - simpl. rewrite Hc. reflexivity.
  - rewrite append_cons. simpl. rewrite IH. reflexivity.
Qed.

Lemma splitlines_name_then_line_feed (n rest : string) :
  Forall (fun c => Py.isspace c = false) (list_ascii_of_string n) ->
  Py.splitlines (n ++ String Py.LF rest) = n :: Py.splitlines rest.
Proof.
  induction n as [| c n IH]; intros Hall.
  - reflexivity.
  - inversion Hall as [| ? ? Hc Hn]; subst.
    rewrite append_cons. simpl.
    rewrite (linebreak_is_space c Hc). rewrite (IH Hn). reflexivity.
Qed.

Lemma splitlines_last_name (n : string) :
  plain_name n -> Py.splitlines n = [n].
Proof.
  intros [Hne Hall]. induction n as [| c n IH]; [contradiction |].
  inversion Hall as [| ? ? Hc Hn]; subst. simpl.
  rewrite (linebreak_is_space c Hc).
  destruct n as [| d n]; [reflexivity |].
  rewrite IH; [reflexivity | discriminate | exact Hn].
Qed.

Lemma concat_of_names_not_empty (n : string) (names : list string) :
  n <> "" -> String.concat (String Py.LF "") (n :: names) <> "".
Proof.
  intros Hne. destruct n as [| c n]; [contradiction |].
  destruct names; simpl; discriminate.
Qed.

Lemma rstrip_listing (n : string) (names : list string) :
  Forall plain_name (n :: names) ->
  Py.rstrip (listing (n :: names)) = String.concat (String Py.LF "") (n :: names).
Proof.
  revert n. induction names as [| m names IH]; intros n Hall;
    inversion Hall as [| ? ? [Hne Hn] Hrest]; subst.
  - simpl. rewrite rstrip_final_space by reflexivity.
    apply rstrip_without_space, Hn.
  - specialize (IH m Hrest).
    assert (Hm : m <> "") by (inversion Hrest as [| ? ? [Hm _] _]; exact Hm).
    pose proof (concat_of_names_not_empty m names Hm) as Hfilled.
    change (listing (n :: m :: names))
      with (n ++ String Py.LF (listing (m :: names))).
    assert (Htail : Py.rstrip (String Py.LF (listing (m :: names)))
                    = String Py.LF (String.concat (String Py.LF "") (m :: names))).
    { change (Py.rstrip (String Py.LF (listing (m :: names))))
        with (if Py.is_empty (Py.rstrip (listing (m :: names)))
                 && Py.isspace Py.LF
              then "" else String Py.LF (Py.rstrip (listing (m :: names)))).
      rewrite IH.
      destruct (String.concat (String Py.LF "") (m :: names));
        [contradiction | reflexivity]. }
    rewrite rstrip_after_prefix by (rewrite Htail; discriminate).
    rewrite Htail. reflexivity.
Qed.

(** What is left of a listing once [run] has stripped it: the names with a
    line feed between them. *)
Lemma strip_listing (names : list string) :
  Forall plain_name names ->
  Py.strip (listing names) = String.concat (String Py.LF "") names.
Proof.
  intros Hall. destruct names as [| n names]; [reflexivity |].
  assert (Hl : Py.lstrip (listing (n :: names)) = listing (n :: names)).
  { inversion Hall as [| ? ? [Hne Hn] _]; subst.
    destruct n as [| c n]; [contradiction |].
    inversion Hn as [| ? ? Hc _]; subst.
    change (listing (String c n :: names))
      with (String c (n ++ String Py.LF (listing names))).
    simpl. rewrite Hc. reflexivity. }
  unfold Py.strip. rewrite Hl. apply rstrip_listing, Hall.
Qed.

Lemma splitlines_of_names (names : list string) :
  Forall plain_name names ->
  Py.splitlines (String.concat (String Py.LF "") names) = names.
Proof.
  induction names as [| n names IH]; intros Hall; [reflexivity |].
  inversion Hall as [| ? ? Hn Hrest]; subst.
  destruct names as [| m names].
  - apply splitlines_last_name, Hn.
  - change (String.concat (String Py.LF "") (n :: m :: names))
      with (n ++ String Py.LF (String.concat (String Py.LF "") (m :: names))).
    rewrite splitlines_name_then_line_feed by apply Hn.
    rewrite (IH Hrest). reflexivity.
Qed.

Lemma filter_plain_names (names : list string) :
  Forall plain_name names ->
  filter (fun b => Py.is_empty b = false) names = names.
Proof.
  induction names as [| n names IH]; intros Hall; [reflexivity |].
  inversion Hall as [| ? ? [Hne _] Hrest]; subst.
  rewrite filter_cons_True by (apply is_empty_false, Hne).
  rewrite (IH Hrest). reflexivity.
Qed.

(** X11. Reading the branch list is a round trip: when [git for-each-ref]
    succeeds and prints the names (not empty, free of white space) one per
    line, [local_branches] returns exactly these names, in the order
    printed; for an empty output it returns the empty list. *)
Theorem local_branches_reads_the_listing (names : list string) (w : World) :
  let query :=
    ["git"; "for-each-ref"; "--format=%(refname:short)"; "refs/heads"] in
  let answer := subprocess_run query w in
  Forall plain_name names ->
  returncode (fst answer) = 0 ->
  stdout (fst answer) = listing names ->
  local_branches w
  = {| result := inr names; final := snd answer;
       trace := [Ran query (fst answer)] |}.
Proof.
  intros query answer Hall Hok Hout. unfold local_branches.
  rewrite (bind_known _ _ _ _ _ _ (run_checked_ok _ w Hok)).
  fold query answer. rewrite Hout, strip_listing by exact Hall.
  rewrite splitlines_of_names by exact Hall.
  rewrite filter_plain_names by exact Hall. reflexivity.
Qed.

Lemma splitlines_bounded (n : nat) (s l : string) :
  (String.length s <= n)%nat ->
  In l (Py.splitlines s) ->
  Forall (fun c => Py.is_linebreak c = false) (list_ascii_of_string l).
Proof.
  revert s l. induction n as [| n IH]; intros s l Hlen Hin.
  - destruct s; [destruct Hin | simpl in Hlen; lia].
  - destruct s as [| c s]; [destruct Hin |]. simpl in Hlen, Hin.
    destruct (Py.is_linebreak c) eqn:Hc.
    + destruct Hin as [<- | Hin]; [constructor |].
      destruct (Ascii.eqb c Py.CR).
      * destruct s as [| d s]; [destruct Hin |].
        destruct (Ascii.eqb d Py.LF).
        -- apply (IH s); [simpl in Hlen; lia | exact Hin].
        -- apply (IH (String d s)); [lia | exact Hin].
      * apply (IH s); [lia | exact Hin].
    + destruct (Py.splitlines s) as [| l0 ls] eqn:Hs.
      * destruct Hin as [<- | []]. simpl. constructor; [exact Hc | constructor].
      * destruct Hin as [<- | Hin].
        -- simpl. constructor; [exact Hc |].
           apply (IH s); [lia | rewrite Hs; left; reflexivity].
        -- apply (IH s); [lia | rewrite Hs; right; exact Hin].
Qed.

(** X12. Whatever git prints, no name that [local_branches] returns is
    empty or holds a line break. So in a detached HEAD, where
    [git branch --show-current] prints nothing and the current branch reads
    as the empty string, no listed branch is taken for the current one. *)
Theorem listed_names_are_never_empty (w : World) (names : list string) :
  result (local_branches w) = inr names ->
  Forall (fun b =>
            b <> ""
            /\ Forall (fun c => Py.is_linebreak c = false) (list_ascii_of_string b)
            /\ forall w' : World, guard_current "" b w' = ret tt w')
    names.
Proof.
  unfold local_branches. intros Hres.
  destruct (bind_result_inr _ _ _ _ Hres) as (out & _ & Hnames & _).
  cbn [ret result] in Hnames. inversion Hnames as [Heq]. clear Hnames Hres.
  apply Forall_forall. intros b Hb.
  apply list_elem_of_filter in Hb.
  destruct Hb as [Hne Hb].
  apply is_empty_false in Hne. rewrite list_elem_of_In in Hb.
  split; [exact Hne |]. split.
  - apply (splitlines_bounded (String.length out) out b); [lia | exact Hb].
  - intros w'. apply guard_current_passes. exact Hne.
Qed.

(** ** The commands of a run *)

Section Inventory.
Variable P : list string -> Prop.

Lemma only_ret {A} (x : A) : only (World := World) P (ret x).
Proof. intros w. constructor. Qed.

Lemma only_abort {A} (c : control) : only (World := World) P (abort (A := A) c).
Proof. intros w. constructor. Qed.

Lemma only_emit_line (line : string) : only (World := World) P (print line).
Proof. intros w. constructor. Qed.

Lemma only_echo_err (line : string) : only (World := World) P (echo_err line).
Proof. intros w. constructor. Qed.

Lemma only_bind {A B} (m : M World A) (f : A -> M World B) :
  only P m -> (forall x, only P (f x)) -> only P (bind m f).
Proof.
  intros Hm Hf w. unfold bind. destruct (result (m w)) as [c | x].
  - apply Hm.
  - unfold after. cbn [trace]. rewrite commands_app.
    apply Forall_app. split; [apply Hm | apply Hf].
Qed.

Lemma only_spawn (cmd : list string) : P cmd -> only P (spawn cmd).
Proof.
  intros Hcmd w. unfold spawn. destruct (subprocess_run cmd w) as [p w'].
  cbn [trace commands]. constructor; [exact Hcmd | constructor].
Qed.

Lemma only_run (cmd : list string) (check : bool) : P cmd -> only P (run cmd check).
Proof.
  intros Hcmd. unfold run. apply only_bind; [apply only_spawn, Hcmd |].
  intros p. destruct (check && negb (Z.eqb (returncode p) 0)).
  - apply only_abort.
  - apply only_ret.
Qed.

Lemma only_try {A} (body : M World A) (handler : string -> M World A) :
  only P body -> (forall msg, only P (handler msg)) ->
  only P (try_except_RuntimeError body handler).
Proof.
  intros Hb Hh w. unfold try_except_RuntimeError.
  destruct (result (body w)) as [[| [msg | | code]] | x]; try apply Hb.
  unfold after. cbn [trace]. rewrite commands_app.
  apply Forall_app. split; [apply Hb | apply Hh].
Qed.

Lemma only_iteration (body : M World unit) : only P body -> only P (iteration body).
Proof.
  intros Hb w. unfold iteration.
  destruct (result (body w)) as [[| e] | []]; apply Hb.
Qed.

Lemma only_for_each {A} (l : list A) (body : A -> M World unit) :
  (forall x, only P (body x)) -> only P (for_each l body).
Proof.
  intros Hb. induction l as [| x l IH]; simpl.
  - apply only_ret.
  - apply only_bind; [apply only_iteration, Hb | intros _; exact IH].
Qed.

End Inventory.

Ltac only_step :=
  match goal with
  | |- only _ (ret _) => apply only_ret
  | |- only _ (continue) => apply only_abort
  | |- only _ (raise _) => apply only_abort
  | |- only _ (print _) => apply only_emit_line
  | |- only _ (echo_err _) => apply only_echo_err
  | |- only _ (run _ _) => apply only_run
  | |- only _ (spawn _) => apply only_spawn
  | |- only _ (bind _ _) => apply only_bind; [| intros ?]
  | |- only _ (when ?c _) => unfold when; destruct c eqn:?
  | |- only _ (if ?c then _ else _) => destruct c eqn:?
  end.

Lemma only_survey (a : Args) (base_ref : string) :
  only (started_by a base_ref) (survey a).
Proof.
  unfold survey, current_branch, local_branches.
  apply only_bind.
  { intros w. unfold ensure_git_repo.
    destruct (negb (path_is_dir (repo a) w));
      [| destruct (negb (path_is_dir (repo a ++ "/.git") w))]; constructor. }
  intros _. apply only_bind.
  { intros w. unfold chdir. destruct (os_chdir (repo a) w); constructor. }
  intros _. repeat only_step.
  - apply started_fetch. assumption.
  - apply started_current.
  - apply started_listing.
Qed.

Lemma only_preflight (a : Args) (base_ref : string) :
  only (started_by a base_ref) (preflight a base_ref).
Proof.
  unfold preflight. apply only_bind.
  { apply only_try; [apply only_survey |]. intros msg. repeat only_step. }
  intros found. repeat only_step. apply started_base.
Qed.

Lemma only_clean_branch
    (protected critical : gset string) (cur base_ref : string) (a : Args)
    (b : string) :
  only (World := World) (started_by a base_ref)
    (clean_branch protected critical cur base_ref a b).
Proof.
  unfold clean_branch, guards_after_current, checks_and_retire.
  apply only_bind; [unfold guard_current; repeat only_step | intros _].
  apply only_bind; [unfold guard_protected; repeat only_step | intros _].
  apply only_bind; [unfold guard_critical; repeat only_step | intros _].
  apply only_bind; [| intros _].
  { unfold guard_upstream, upstream_for. repeat only_step.
    apply started_upstream. assumption. }
  apply only_bind; [| intros _].
  { unfold guard_issue_closure, when.
    destruct (check_issue_closure a) eqn:Hflag; [| apply only_ret].
    destruct (issue_id_from_branch b) as [id |] eqn:Hid;
      unfold skip_no_issue_id, base_has_issue_closure; repeat only_step.
    apply (started_log a base_ref b id); assumption. }
  apply only_bind; [| intros tip].
  { unfold guard_ancestry, tip_sha, commit_in_base. repeat only_step.
    - apply started_tip.
    - apply started_ancestry. }
  apply only_bind; [| intros _].
  { unfold guard_remote, remote_branch_exists. repeat only_step.
    apply started_lookup. assumption. }
  unfold retire, delete_branch. repeat only_step.
  apply started_deletion. assumption.
Qed.

Lemma only_clean (cfg : Config) (a : Args) :
  only (World := World) (started_by a (base_of cfg a)) (clean cfg a).
Proof.
  unfold clean. apply only_bind.
  { intros w. unfold check_repo_option.
    destruct (path_exists (repo a) w); constructor. }
  intros _. apply only_bind; [apply only_preflight | intros found].
  apply only_for_each. intros b. apply only_clean_branch.
Qed.

(** X13. Every command a run of [clean] starts is a [git] command of the
    inventory [started_by]. In particular the run contacts the remote
    ([git fetch], [git ls-remote]) only when [--fetch] or
    [--check-remote-missing] asks for it, searches the log only with
    [--check-issue-closure], and starts a deletion only outside a dry
    run. *)
Theorem every_command_is_accounted_for
    (cfg : Config) (a : Args) (w : World) (cmd : list string) :
  In cmd (commands (trace (clean cfg a w))) ->
  started_by a (base_of cfg a) cmd
  /\ (exists rest, cmd = "git" :: rest)
  /\ (nth_error cmd 1 = Some "fetch" -> fetch a = true)
  /\ (nth_error cmd 1 = Some "ls-remote" -> check_remote_missing a = true)
  /\ (nth_error cmd 1 = Some "log" -> check_issue_closure a = true)
  /\ (is_deletion cmd = true -> dry_run a = false).
Proof.
  intros Hin.
  pose proof (only_clean cfg a w) as Hall.
  rewrite List.Forall_forall in Hall. specialize (Hall cmd Hin).
  split; [exact Hall |].
  destruct Hall as [Hf | | | | b Hu | b id Hi Hid | b | tip | b Hr | b Hd];
    (split; [eexists; reflexivity |]);
    unfold closure_query, delete_command; cbn [nth_error];
    repeat split; intros Hq; try assumption; try discriminate Hq.
Qed.

(** ** A deletion that git refuses *)

Lemma clean_branch_reaches_retire
    (protected critical : gset string) (cur base_ref : string) (a : Args)
    (b : string) (w : World) :
  b <> cur ->
  Py.lower b ∉ protected ->
  Py.lower b ∉ critical ->
  check_upstream_missing a = false ->
  check_issue_closure a = false ->
  check_remote_missing a = false ->
  let resolved := subprocess_run ["git"; "rev-parse"; b] w in
  let tip := Py.strip (stdout (fst resolved)) in
  let oracle :=
    subprocess_run ["git"; "merge-base"; "--is-ancestor"; tip; base_ref]
      (snd resolved) in
  returncode (fst resolved) = 0 ->
  returncode (fst oracle) = 0 ->
  clean_branch protected critical cur base_ref a b w
  = after [Ran ["git"; "rev-parse"; b] (fst resolved);
           Ran ["git"; "merge-base"; "--is-ancestor"; tip; base_ref] (fst oracle)]
      (retire a base_ref b tip (snd oracle)).
Proof.
  intros Hne Hp Hc Hup Hissue Hremote resolved tip oracle Hok Hyes.
  rewrite unprotected_falls_through by assumption.
  unfold checks_and_retire.
  rewrite (bind_known _ _ w w tt [])
    by (unfold guard_upstream; rewrite Hup; reflexivity).
  rewrite (bind_known _ _ w w tt [])
    by (unfold guard_issue_closure; rewrite Hissue; reflexivity).
  rewrite (bind_known _ _ _ _ _ _ (guard_ancestry_passes base_ref b w Hok Hyes)).
  fold resolved tip oracle.
  rewrite (bind_known _ _ (snd oracle) (snd oracle) tt [])
    by (unfold guard_remote; rewrite Hremote; reflexivity).
  unfold after. cbn [result final trace app]. reflexivity.
Qed.

Lemma for_each_raises {A} (x : A) (l : list A) (body : A -> M World unit)
    (w : World) (e : exn) :
  result (body x w) = inl (Raise e) ->
  for_each (x :: l) body w = body x w.
Proof.
  intros Hr. cbn [for_each]. unfold bind, iteration. rewrite Hr.
  cbn [result final trace]. rewrite Hr.
  destruct (body x w) as [r f t]. cbn in *. rewrite Hr. reflexivity.
Qed.

(** X14. A deletion that git refuses ends the run. With the optional checks
    off and outside a dry run, take a branch that is not current, protected
    or critical and whose tip is in the base: when [git branch -d] (or [-D])
    ends with a status other than 0, [RuntimeError] is raised after the
    deletion line, nothing catches it, the status is 1, and the branches
    that follow in the list are not looked at. *)
Theorem refused_deletion_ends_the_run
    (protected critical : gset string) (cur base_ref : string) (a : Args)
    (b : string) (later : list string) (w : World) :
  b <> cur ->
  Py.lower b ∉ protected ->
  Py.lower b ∉ critical ->
  check_upstream_missing a = false ->
  check_issue_closure a = false ->
  check_remote_missing a = false ->
  dry_run a = false ->
  let resolved := subprocess_run ["git"; "rev-parse"; b] w in
  let tip := Py.strip (stdout (fst resolved)) in
  let oracle :=
    subprocess_run ["git"; "merge-base"; "--is-ancestor"; tip; base_ref]
      (snd resolved) in
  let attempt := subprocess_run (delete_command b (force a)) (snd oracle) in
  returncode (fst resolved) = 0 ->
  returncode (fst oracle) = 0 ->
  returncode (fst attempt) <> 0 ->
  let o := for_each (b :: later)
             (clean_branch protected critical cur base_ref a) w in
  result o
  = inl (Raise (RuntimeError
                  ("Command failed: git branch "
                     ++ (if force a then "-D" else "-d") ++ " " ++ b
                     ++ String Py.LF (Py.strip (stderr (fst attempt))))))
  /\ exit_status (result o) = 1
  /\ final o = snd attempt
  /\ trace o
     = [Ran ["git"; "rev-parse"; b] (fst resolved);
        Ran ["git"; "merge-base"; "--is-ancestor"; tip; base_ref] (fst oracle);
        Print ("[DEL ] " ++ b ++ " (tip " ++ Py.take 8 tip ++ " is in "
                 ++ base_ref ++ ")");
        Ran (delete_command b (force a)) (fst attempt)].
Proof.
  intros Hne Hp Hc Hup Hissue Hremote Hdry resolved tip oracle attempt
    Hok Hyes Hrefused o.
  assert (Hbody : clean_branch protected critical cur base_ref a b w
                  = {| result :=
                         inl (Raise (RuntimeError
                                ("Command failed: "
                                   ++ Py.join " " (delete_command b (force a))
                                   ++ String Py.LF
                                        (Py.strip (stderr (fst attempt))))));
                       final := snd attempt;
                       trace :=
                         [Ran ["git"; "rev-parse"; b] (fst resolved);
                          Ran ["git"; "merge-base"; "--is-ancestor"; tip; base_ref]
                            (fst oracle);
                          Print ("[DEL ] " ++ b ++ " (tip " ++ Py.take 8 tip
                                   ++ " is in " ++ base_ref ++ ")");
                          Ran (delete_command b (force a)) (fst attempt)] |}).
  { rewrite (clean_branch_reaches_retire protected critical cur base_ref a b w)
      by assumption.
    fold resolved tip oracle. unfold retire, delete_branch. rewrite Hdry.
    unfold print, emit.
    rewrite (bind_known _ _ (snd oracle) (snd oracle) tt
               [Print ("[DEL ] " ++ b ++ " (tip " ++ Py.take 8 tip ++ " is in "
                         ++ base_ref ++ ")")] eq_refl).
    unfold bind. rewrite (run_checked_fails _ (snd oracle) Hrefused).
    fold attempt. reflexivity. }
  assert (Ho : o = clean_branch protected critical cur base_ref a b w).
  { unfold o. apply (for_each_raises b later _ w
                       (RuntimeError
                          ("Command failed: "
                             ++ Py.join " " (delete_command b (force a))
                             ++ String Py.LF (Py.strip (stderr (fst attempt)))))).
    rewrite Hbody. reflexivity. }
  rewrite Ho, Hbody. cbn [result final trace exit_status].
  repeat split. unfold delete_command, Py.join.
  destruct (force a); reflexivity.
Qed.

(** ** The report of a run *)




End Properties.

(** * The properties on concrete runs *)

Ltac by_evaluation := apply (bool_decide_unpack _); vm_compute; exact I.

(** C2 on scenario A: [dev] is protected, [main] is checked out. *)
Lemma protected_or_critical_skipped_witness :
  let protected := run_protected Demo.defaults Demo.plain_args in
  let critical := run_critical Demo.defaults Demo.plain_args in
  "dev" <> "main"
  /\ (Py.lower "dev" ∈ protected \/ Py.lower "dev" ∈ critical)
  /\ clean_branch protected critical "main" "dev" Demo.plain_args "dev"
       Demo.scenario_A
     = {| result := inl Continue; final := Demo.scenario_A;
          trace := [Print "[SKIP] dev (protected)"] |}.
Proof.
  intros protected critical.
  assert (Hne : "dev" <> "main") by discriminate.
  assert (Hin : Py.lower "dev" ∈ protected \/ Py.lower "dev" ∈ critical)
    by (left; by_evaluation).
  split; [exact Hne |]. split; [exact Hin |].
  rewrite (protected_or_critical_skipped protected critical "main" "dev"
             Demo.plain_args "dev" Demo.scenario_A Hne Hin).
  vm_compute. reflexivity.
Defined.

(** Without settings in the environment the defaults are loaded. *)
Lemma load_defaults : load_config (∅ : gmap string string) = inr Demo.defaults.
Proof. vm_compute. reflexivity. Qed.

(** C3 on a repository in which [git for-each-ref] fails. *)
Lemma exit_status_of_failures_witness :
  let listing_query :=
    ["git"; "for-each-ref"; "--format=%(refname:short)"; "refs/heads"] in
  load_config (∅ : gmap string string) = inr Demo.defaults
  /\ returncode (fst (Demo.git_damaged listing_query Demo.unlistable)) = 128
  /\ validation_failure Demo.defaults Demo.plain_args Demo.unlistable
  /\ result (script ∅ Demo.plain_args Demo.unlistable) = inl (Raise (TyperExit 2))
  /\ exit_status (result (script ∅ Demo.plain_args Demo.unlistable)) = 2
  /\ printed (trace (script ∅ Demo.plain_args Demo.unlistable)) = [].
Proof.
  intros listing_query.
  assert (Hcfg : load_config (∅ : gmap string string) = inr Demo.defaults)
    by (vm_compute; reflexivity).
  assert (Hfail : validation_failure Demo.defaults Demo.plain_args Demo.unlistable).
  { apply (branches_not_listed _ _ _ Demo.unlistable); try reflexivity.
    vm_compute. discriminate. }
  split; [exact Hcfg |]. split; [reflexivity |]. split; [exact Hfail |].
  destruct (proj1 (exit_status_of_failures ∅ Demo.plain_args Demo.unlistable)
              Demo.defaults Hcfg Hfail) as (Hres & Hstatus & Hlines & _).
  split; [exact Hres |]. split; [exact Hstatus | exact Hlines].
Defined.

(** Against C3 as stated: with a protected set that comes out empty the
    process ends with status 1, not 2. *)
Lemma empty_protected_set_ends_with_status_1 :
  let o := script Demo.blank_protected Demo.plain_args Demo.scenario_A in
  branch_set (getenv Demo.blank_protected "PROTECTED_BRANCHES"
                "main,master,develop,dev,release,staging,production") = ∅
  /\ result o
     = inl (Raise (RuntimeError
              "PROTECTED_BRANCHES resolved to an empty set. Refusing to run to avoid deleting important branches."))
  /\ exit_status (result o) = 1
  /\ exit_status (result o) <> 2.
Proof.
  vm_compute. repeat split; discriminate.
Qed.

(** C4 as amended, with [--protect " Feature-X "]. *)
Lemma additions_join_protected_set_witness :
  let a := Demo.protecting [" Feature-X "] in
  " Feature-X " ∈ protect a
  /\ Py.strip " Feature-X " <> ""
  /\ Py.lower "feature-x" = Py.lower (Py.strip " Feature-X ")
  /\ "feature-x" <> "main"
  /\ run_critical Demo.defaults a = CRITICAL Demo.defaults
  /\ run_protected Demo.defaults a
     = PROTECTED Demo.defaults ∪ name_set (protect a)
  /\ Py.lower "feature-x" ∈ run_protected Demo.defaults a
  /\ clean_branch (run_protected Demo.defaults a) (run_critical Demo.defaults a)
       "main" "dev" a "feature-x" Demo.scenario_A
     = {| result := inl Continue; final := Demo.scenario_A;
          trace := [Print ("[SKIP] " ++ "feature-x" ++ " (protected)")] |}.
Proof.
  intros a.
  assert (H1 : " Feature-X " ∈ protect a) by (apply list_elem_of_In; left; reflexivity).
  assert (H2 : Py.strip " Feature-X " <> "") by (vm_compute; discriminate).
  assert (H3 : Py.lower "feature-x" = Py.lower (Py.strip " Feature-X "))
    by (vm_compute; reflexivity).
  assert (H4 : "feature-x" <> "main") by discriminate.
  repeat (split; [assumption |]).
  exact (additions_join_protected_set Demo.defaults a "main" "dev" "feature-x"
           " Feature-X " Demo.scenario_A H1 H2 H3 H4).
Defined.

(** Against C4 as stated: a name given with [--protect] is not in the
    critical set of the run. *)
Lemma additions_do_not_join_critical_set :
  let a := Demo.protecting ["feature-x"] in
  Py.lower "feature-x" ∈ name_set (protect a)
  /\ (Py.lower "feature-x" ∉ run_critical Demo.defaults a)
  /\ run_critical Demo.defaults a
     <> (CRITICAL Demo.defaults ∪ name_set (protect a)).
Proof.
  intros a.
  assert (Hin : Py.lower "feature-x" ∈ name_set (protect a)) by by_evaluation.
  assert (Hout : Py.lower "feature-x" ∉ run_critical Demo.defaults a) by by_evaluation.
  split; [exact Hin |]. split; [exact Hout |].
  intros Heq. apply Hout. rewrite Heq. apply elem_of_union_r. exact Hin.
Qed.

(** C5, where the program departs from it. The command of line 125 gives
    the pattern to [git log --grep] with neither [-E] nor [-P], so git reads
    it as a basic regular expression, in which [( ) | + ?] stand for
    themselves. On a base whose only message quotes the pattern, no message
    closes issue 42, yet the search finds a commit: the guard lets
    [42-fix-bug] pass and the branch is deleted. On scenario B of the
    specification a message says [Fixes #42], yet the search finds nothing
    and the branch is kept. *)
Theorem closure_search_reads_the_pattern_literally :
  let protected := run_protected Demo.defaults Demo.issue_args in
  let critical := run_critical Demo.defaults Demo.issue_args in
  let body := clean_branch protected critical "main" "dev" Demo.issue_args
                "42-fix-bug" in
  issue_id_from_branch "42-fix-bug" = Some "42"
  /\ Demo.base_log Demo.pattern_quoted
     = ["note (closes|closed|fixes|fixed|resolves|resolved) +#?42"]
  /\ existsb (closure_marker "42") (Demo.base_log Demo.pattern_quoted) = false
  /\ result (guard_issue_closure Demo.issue_args "dev" "42-fix-bug"
               Demo.pattern_quoted) = inr tt
  /\ printed (trace (body Demo.pattern_quoted))
     = ["[DEL ] 42-fix-bug (tip b4b4b4b4 is in dev)"]
  /\ deletions (trace (body Demo.pattern_quoted))
     = [["git"; "branch"; "-d"; "42-fix-bug"]]
  /\ Demo.base_log Demo.scenario_B = ["Fixes #42"]
  /\ existsb (closure_marker "42") (Demo.base_log Demo.scenario_B) = true
  /\ result (body Demo.scenario_B) = inl Continue
  /\ printed (trace (body Demo.scenario_B))
     = ["[KEEP] 42-fix-bug (no issue-closure marker on dev for #42)"].
Proof. vm_compute. repeat split. Qed.

(** X16 on scenario B without the closing commit. *)
Lemma issue_closure_guard_decides_witness :
  let protected := run_protected Demo.defaults Demo.issue_args in
  let critical := run_critical Demo.defaults Demo.issue_args in
  check_issue_closure Demo.issue_args = true
  /\ "42-fix-bug" <> "main"
  /\ (Py.lower "42-fix-bug" ∉ protected)
  /\ (Py.lower "42-fix-bug" ∉ critical)
  /\ result (guard_upstream Demo.issue_args "42-fix-bug" Demo.scenario_B_open)
     = inr tt
  /\ issue_pattern "42" "42-fix-bug"
  /\ printed
       (trace (clean_branch protected critical "main" "dev" Demo.issue_args
                 "42-fix-bug" Demo.scenario_B_open))
     = ["[KEEP] 42-fix-bug (no issue-closure marker on dev for #42)"].
Proof.
  intros protected critical.
  assert (H1 : check_issue_closure Demo.issue_args = true) by reflexivity.
  assert (H2 : "42-fix-bug" <> "main") by discriminate.
  assert (H3 : Py.lower "42-fix-bug" ∉ protected) by by_evaluation.
  assert (H4 : Py.lower "42-fix-bug" ∉ critical) by by_evaluation.
  assert (H5 : result (guard_upstream Demo.issue_args "42-fix-bug"
                         Demo.scenario_B_open) = inr tt) by reflexivity.
  assert (H6 : issue_pattern "42" "42-fix-bug")
    by (apply issue_id_from_branch_spec; vm_compute; reflexivity).
  repeat (split; [assumption |]).
  rewrite (proj2 (issue_closure_guard_decides protected critical "main" "dev"
                    Demo.issue_args "42-fix-bug" Demo.scenario_B_open
                    H1 H2 H3 H4 H5) "42" H6 eq_refl).
  vm_compute. reflexivity.
Defined.

(** C6 on a branch with a commit of its own. *)
Lemma tip_outside_base_is_kept_witness :
  let protected := run_protected Demo.defaults Demo.plain_args in
  let critical := run_critical Demo.defaults Demo.plain_args in
  let o := clean_branch protected critical "main" "dev" Demo.plain_args
             "feature-x" Demo.unmerged in
  "feature-x" <> "main"
  /\ (Py.lower "feature-x" ∉ protected)
  /\ (Py.lower "feature-x" ∉ critical)
  /\ result o = inl Continue
  /\ printed (trace o) = ["[KEEP] feature-x (tip f1f1f1f1 NOT in dev)"]
  /\ deletions (trace o) = [].
Proof.
  intros protected critical o.
  assert (H1 : "feature-x" <> "main") by discriminate.
  assert (H2 : Py.lower "feature-x" ∉ protected) by by_evaluation.
  assert (H3 : Py.lower "feature-x" ∉ critical) by by_evaluation.
  repeat (split; [assumption |]).
  assert (H4 : result
                  (bind (guard_upstream Demo.plain_args "feature-x")
                     (fun _ => guard_issue_closure Demo.plain_args "dev" "feature-x")
                     Demo.unmerged) = inr tt) by reflexivity.
  assert (H5 : returncode
                 (fst (Demo.git ["git"; "rev-parse"; "feature-x"] Demo.unmerged))
               = 0) by reflexivity.
  assert (H6 : returncode
                 (fst (Demo.git
                         ["git"; "merge-base"; "--is-ancestor"; "f1f1f1f1f1"; "dev"]
                         Demo.unmerged)) <> 0) by (vm_compute; discriminate).
  destruct (tip_outside_base_is_kept protected critical "main" "dev"
              Demo.plain_args "feature-x" Demo.unmerged H1 H2 H3 H4 H5 H6)
    as (Hres & _ & _ & Hprinted & Hdel).
  split; [exact Hres |]. split; [| exact Hdel].
  unfold o. rewrite Hprinted. vm_compute. reflexivity.
Defined.

(** C7 on a remote that cannot be reached: [feature-x] is on the remote,
    the look-up fails with status 128, and the branch is deleted. *)
Lemma failed_lookup_reads_as_absent_witness :
  let protected := run_protected Demo.defaults Demo.remote_check_args in
  let critical := run_critical Demo.defaults Demo.remote_check_args in
  let o := clean_branch protected critical "main" "dev" Demo.remote_check_args
             "feature-x" Demo.offline in
  check_remote_missing Demo.remote_check_args = true
  /\ "feature-x" <> "main"
  /\ (Py.lower "feature-x" ∉ protected)
  /\ (Py.lower "feature-x" ∉ critical)
  /\ returncode
       (fst (Demo.git ["git"; "ls-remote"; "--heads"; "origin"; "feature-x"]
               Demo.offline)) = 128
  /\ result o = inr tt
  /\ commands (trace o)
     = [["git"; "rev-parse"; "feature-x"];
        ["git"; "merge-base"; "--is-ancestor"; "f1f1f1f1f1"; "dev"];
        ["git"; "ls-remote"; "--heads"; "origin"; "feature-x"];
        ["git"; "branch"; "-d"; "feature-x"]]
  /\ Demo.heads (final o) = [("dev", "d0d0d0d0d0"); ("main", "a2a2a2a2a2")].
Proof.
  intros protected critical o.
  assert (H1 : check_remote_missing Demo.remote_check_args = true) by reflexivity.
  assert (H2 : "feature-x" <> "main") by discriminate.
  assert (H3 : Py.lower "feature-x" ∉ protected) by by_evaluation.
  assert (H4 : Py.lower "feature-x" ∉ critical) by by_evaluation.
  repeat (split; [assumption |]).
  split; [reflexivity |].
  assert (H5 : result
                  (bind (guard_upstream Demo.remote_check_args "feature-x")
                     (fun _ =>
                        bind (guard_issue_closure Demo.remote_check_args "dev"
                                "feature-x")
                          (fun _ => guard_ancestry "dev" "feature-x"))
                     Demo.offline) = inr "f1f1f1f1f1") by reflexivity.
  assert (H6 : returncode
                 (fst (Demo.git ["git"; "ls-remote"; "--heads"; "origin"; "feature-x"]
                         Demo.offline)) <> 0) by (vm_compute; discriminate).
  assert (H7 : Py.strip
                 (stdout
                    (fst (Demo.git
                            ["git"; "ls-remote"; "--heads"; "origin"; "feature-x"]
                            Demo.offline))) = "") by reflexivity.
  destruct (failed_lookup_reads_as_absent protected critical "main" "dev"
              Demo.remote_check_args "feature-x" "f1f1f1f1f1" Demo.offline
              H1 H2 H3 H4 H5 H6 H7)
    as (_ & Hres & Hfin & Htr).
  unfold o. rewrite Hres, Hfin, Htr.
  vm_compute. repeat split.
Defined.

(** Against C8 as stated: a dry run over the three branches of scenario A
    writes four lines, two of them for [feature-x]. *)
Lemma dry_run_deletion_writes_two_lines :
  let o := script ∅ Demo.dry_args Demo.scenario_A in
  result (local_branches Demo.scenario_A) = inr ["dev"; "feature-x"; "main"]
  /\ result o = inr tt
  /\ printed (trace o)
     = ["[SKIP] dev (protected)";
        "[DEL ] feature-x (tip f1f1f1f1 is in dev)";
        "[DRY] git branch -d feature-x";
        "[SKIP] main (current)"]
  /\ length (printed (trace o)) <> 3%nat.
Proof.
  vm_compute. repeat split; discriminate.
Qed.

(** Equal repositories cannot be told apart. *)
Lemma demo_same_answers : same_answers (World := Demo.Repo) eq.
Proof.
  repeat split; intros; subst; try reflexivity.
  destruct (os_chdir path w2); reflexivity.
Defined.

(** C9 on scenario A. *)
Lemma dry_runs_agree_witness :
  dry_run Demo.dry_args = true
  /\ same_answers (World := Demo.Repo) eq
  /\ printed (trace (script ∅ Demo.dry_args Demo.scenario_A))
     = printed (trace (script ∅ Demo.dry_args Demo.scenario_A))
  /\ deletions (trace (script ∅ Demo.dry_args Demo.scenario_A)) = [].
Proof.
  split; [reflexivity |]. split; [exact demo_same_answers |].
  destruct (dry_runs_agree eq ∅ Demo.dry_args Demo.scenario_A Demo.scenario_A
              eq_refl demo_same_answers eq_refl) as (Hlines & _ & _ & Hdel).
  split; [exact Hlines | exact Hdel].
Defined.

(** C10 on [Main] while [main] is checked out. *)
Lemma current_guard_is_case_sensitive_witness :
  let protected := run_protected Demo.defaults Demo.plain_args in
  let critical := run_critical Demo.defaults Demo.plain_args in
  "Main" <> "main"
  /\ Py.lower "Main" = Py.lower "main"
  /\ guard_current "main" "Main" Demo.scenario_A = ret tt Demo.scenario_A
  /\ clean_branch protected critical "main" "dev" Demo.plain_args "Main"
       Demo.scenario_A
     = guards_after_current protected critical "dev" Demo.plain_args "Main"
         Demo.scenario_A.
Proof.
  intros protected critical.
  assert (H1 : "Main" <> "main") by discriminate.
  assert (H2 : Py.lower "Main" = Py.lower "main") by reflexivity.
  repeat (split; [assumption |]).
  destruct (current_guard_is_case_sensitive protected critical "main" "dev"
              Demo.plain_args "Main" Demo.scenario_A H1 H2) as (Hg & Hfall & _).
  split; [exact Hg | exact Hfall].
Defined.

(** ** The further properties on concrete runs *)

Ltac plain_names :=
  repeat first
    [ apply Forall_nil | apply Forall_cons | split | discriminate | reflexivity ].

(** X1 on scenario A: [feature-x] is deleted, and the conditions held. *)
Lemma deletion_only_when_safe_witness :
  let protected := run_protected Demo.defaults Demo.plain_args in
  let critical := run_critical Demo.defaults Demo.plain_args in
  let o := clean_branch protected critical "main" "dev" Demo.plain_args
             "feature-x" Demo.scenario_A in
  deletions (trace o) <> []
  /\ "feature-x" <> "main"
  /\ (Py.lower "feature-x" ∉ protected)
  /\ (Py.lower "feature-x" ∉ critical)
  /\ dry_run Demo.plain_args = false
  /\ deletions (trace o) = [["git"; "branch"; "-d"; "feature-x"]].
Proof.
  intros protected critical o.
  assert (H1 : deletions (trace o) <> []) by (vm_compute; discriminate).
  split; [exact H1 |].
  destruct (deletion_only_when_safe protected critical "main" "dev"
              Demo.plain_args "feature-x" Demo.scenario_A H1)
    as (Hne & Hp & Hc & Hdry & Hone & _).
  split; [exact Hne |]. split; [exact Hp |]. split; [exact Hc |].
  split; [exact Hdry | exact Hone].
Defined.

(** X2 on scenario A: the deletion of the run is the one of [feature-x]. *)
Lemma run_deletes_only_unprotected_branches_witness :
  let a := Demo.plain_args in
  let cmd := ["git"; "branch"; "-d"; "feature-x"] in
  In cmd (deletions (trace (clean Demo.defaults a Demo.scenario_A)))
  /\ dry_run a = false
  /\ exists cur branches b,
       result (preflight a (base_of Demo.defaults a) Demo.scenario_A)
       = inr (cur, branches)
       /\ In b branches
       /\ b <> cur
       /\ (Py.lower b ∉ PROTECTED Demo.defaults)
       /\ (Py.lower b ∉ name_set (protect a))
       /\ (Py.lower b ∉ CRITICAL Demo.defaults)
       /\ cmd = ["git"; "branch"; if force a then "-D" else "-d"; b].
Proof.
  intros a cmd.
  assert (H1 : In cmd (deletions (trace (clean Demo.defaults a Demo.scenario_A))))
    by (vm_compute; left; reflexivity).
  split; [exact H1 |].
  exact (run_deletes_only_unprotected_branches Demo.defaults a Demo.scenario_A
           cmd H1).
Defined.

(** X3 on scenario A: [dev] is configured as protected, and is not
    deleted. *)
Lemma configured_branches_are_never_deleted_witness :
  (Py.lower "dev" ∈ PROTECTED Demo.defaults
   \/ Py.lower "dev" ∈ CRITICAL Demo.defaults)
  /\ ~ In ["git"; "branch"; "-d"; "dev"]
         (deletions (trace (clean Demo.defaults Demo.plain_args Demo.scenario_A))).
Proof.
  assert (H1 : Py.lower "dev" ∈ PROTECTED Demo.defaults
               \/ Py.lower "dev" ∈ CRITICAL Demo.defaults)
    by (left; by_evaluation).
  split; [exact H1 |].
  exact (configured_branches_are_never_deleted Demo.defaults Demo.plain_args
           Demo.scenario_A "dev" "-d" H1).
Defined.

(** X4 on [--protect " Feature-X "]. *)
Lemma configured_names_are_normalised_witness :
  "feature-x" ∈ name_set [" Feature-X "]
  /\ "feature-x" <> ""
  /\ Py.lower "feature-x" = "feature-x"
  /\ Py.strip "feature-x" = "feature-x".
Proof.
  assert (H1 : "feature-x" ∈ name_set [" Feature-X "]) by by_evaluation.
  split; [exact H1 |].
  exact (configured_names_are_normalised [" Feature-X "] "feature-x" H1).
Defined.

(** X6 on a branch that tracks [origin/feature-x]. *)
Lemma upstream_guard_decides_witness :
  check_upstream_missing Demo.upstream_check_args = true
  /\ result (guard_upstream Demo.upstream_check_args "feature-x" Demo.tracked)
     = inr tt
  /\ commands (trace (guard_upstream Demo.upstream_check_args "feature-x"
                        Demo.tracked))
     = [["git"; "rev-parse"; "--abbrev-ref"; "feature-x@{upstream}"]].
Proof.
  assert (H1 : check_upstream_missing Demo.upstream_check_args = true)
    by reflexivity.
  split; [exact H1 |].
  pose proof (upstream_guard_decides Demo.upstream_check_args "feature-x"
                Demo.tracked H1) as Heq.
  cbn zeta in Heq. rewrite Heq. vm_compute. split; reflexivity.
Defined.

(** X7 on a history in which git finds the pattern. *)
Lemma issue_closure_guard_passes_on_a_hit_witness :
  check_issue_closure Demo.issue_args = true
  /\ issue_id_from_branch "42-fix-bug" = Some "42"
  /\ result (guard_issue_closure Demo.issue_args "dev" "42-fix-bug"
               Demo.pattern_quoted) = inr tt.
Proof.
  assert (H1 : check_issue_closure Demo.issue_args = true) by reflexivity.
  assert (H2 : issue_id_from_branch "42-fix-bug" = Some "42") by reflexivity.
  split; [exact H1 |]. split; [exact H2 |].
  pose proof (issue_closure_guard_passes_on_a_hit Demo.issue_args "dev"
                "42-fix-bug" "42" Demo.pattern_quoted H1 H2) as Heq.
  cbn zeta in Heq. rewrite Heq. vm_compute. reflexivity.
Defined.

(** X9 on scenario A. *)
Lemma merged_branch_is_retired_witness :
  let protected := run_protected Demo.defaults Demo.plain_args in
  let critical := run_critical Demo.defaults Demo.plain_args in
  let o := clean_branch protected critical "main" "dev" Demo.plain_args
             "feature-x" Demo.scenario_A in
  "feature-x" <> "main"
  /\ (Py.lower "feature-x" ∉ protected)
  /\ (Py.lower "feature-x" ∉ critical)
  /\ check_upstream_missing Demo.plain_args = false
  /\ check_issue_closure Demo.plain_args = false
  /\ check_remote_missing Demo.plain_args = false
  /\ returncode (fst (Demo.git ["git"; "rev-parse"; "feature-x"] Demo.scenario_A))
     = 0
  /\ returncode
       (fst (Demo.git ["git"; "merge-base"; "--is-ancestor"; "f1f1f1f1f1"; "dev"]
               Demo.scenario_A)) = 0
  /\ result o = inr tt
  /\ printed (trace o) = ["[DEL ] feature-x (tip f1f1f1f1 is in dev)"]
  /\ commands (trace o)
     = [["git"; "rev-parse"; "feature-x"];
        ["git"; "merge-base"; "--is-ancestor"; "f1f1f1f1f1"; "dev"];
        ["git"; "branch"; "-d"; "feature-x"]].
Proof.
  intros protected critical o.
  assert (H1 : "feature-x" <> "main") by discriminate.
  assert (H2 : Py.lower "feature-x" ∉ protected) by by_evaluation.
  assert (H3 : Py.lower "feature-x" ∉ critical) by by_evaluation.
  assert (H4 : check_upstream_missing Demo.plain_args = false) by reflexivity.
  assert (H5 : check_issue_closure Demo.plain_args = false) by reflexivity.
  assert (H6 : check_remote_missing Demo.plain_args = false) by reflexivity.
  assert (H7 : returncode
                 (fst (Demo.git ["git"; "rev-parse"; "feature-x"] Demo.scenario_A))
               = 0) by reflexivity.
  assert (H8 : returncode
                 (fst (Demo.git
                         ["git"; "merge-base"; "--is-ancestor"; "f1f1f1f1f1"; "dev"]
                         Demo.scenario_A)) = 0) by reflexivity.
  repeat (split; [assumption |]).
  destruct (merged_branch_is_retired (H := Demo.demo_os) protected critical "main" "dev"
              Demo.plain_args "feature-x" Demo.scenario_A H1 H2 H3 H4 H5 H6 H7 H8)
    as (Hres & _ & Htr).
  unfold o. rewrite Hres, Htr. vm_compute. repeat split.
Defined.

(** X11 on scenario A: three names on three lines. *)
Lemma local_branches_reads_the_listing_witness :
  let names := ["dev"; "feature-x"; "main"] in
  let query :=
    ["git"; "for-each-ref"; "--format=%(refname:short)"; "refs/heads"] in
  Forall plain_name names
  /\ returncode (fst (Demo.git query Demo.scenario_A)) = 0
  /\ stdout (fst (Demo.git query Demo.scenario_A)) = listing names
  /\ result (local_branches Demo.scenario_A) = inr names.
Proof.
  intros names query.
  assert (H1 : Forall plain_name names) by (unfold plain_name; plain_names).
  assert (H2 : returncode (fst (Demo.git query Demo.scenario_A)) = 0)
    by reflexivity.
  assert (H3 : stdout (fst (Demo.git query Demo.scenario_A)) = listing names)
    by reflexivity.
  repeat (split; [assumption |]).
  rewrite (local_branches_reads_the_listing (H := Demo.demo_os) names
             Demo.scenario_A H1 H2 H3).
  reflexivity.
Defined.

(** X12 on scenario A. *)
Lemma listed_names_are_never_empty_witness :
  let names := ["dev"; "feature-x"; "main"] in
  result (local_branches Demo.scenario_A) = inr names
  /\ Forall (fun b =>
               b <> ""
               /\ Forall (fun c => Py.is_linebreak c = false)
                    (list_ascii_of_string b)
               /\ forall w' : Demo.Repo, guard_current "" b w' = ret tt w')
       names.
Proof.
  intros names.
  assert (H1 : result (local_branches Demo.scenario_A) = inr names)
    by reflexivity.
  split; [exact H1 |].
  exact (listed_names_are_never_empty Demo.scenario_A names H1).
Defined.

(** X13 on scenario A: the look-up of the tip of [feature-x]. *)
Lemma every_command_is_accounted_for_witness :
  let a := Demo.plain_args in
  let cmd := ["git"; "rev-parse"; "feature-x"] in
  In cmd (commands (trace (clean Demo.defaults a Demo.scenario_A)))
  /\ started_by a "dev" cmd
  /\ (nth_error cmd 1 = Some "fetch" -> fetch a = true)
  /\ (is_deletion cmd = true -> dry_run a = false).
Proof.
  intros a cmd.
  assert (H1 : In cmd (commands (trace (clean Demo.defaults a Demo.scenario_A))))
    by (vm_compute; auto 10).
  split; [exact H1 |].
  destruct (every_command_is_accounted_for Demo.defaults a Demo.scenario_A cmd H1)
    as (Hs & _ & Hf & _ & _ & Hd).
  split; [exact Hs |]. split; [exact Hf | exact Hd].
Defined.

(** X14 with [main] checked out and [feature-x] merged into [dev] only:
    [git branch -d] refuses, and [main], next in the list, is not looked
    at. *)
Lemma refused_deletion_ends_the_run_witness :
  let a := Demo.plain_args in
  let protected := run_protected Demo.defaults a in
  let critical := run_critical Demo.defaults a in
  let o := for_each ["feature-x"; "main"]
             (clean_branch protected critical "main" "dev" a) Demo.on_main in
  "feature-x" <> "main"
  /\ (Py.lower "feature-x" ∉ protected)
  /\ (Py.lower "feature-x" ∉ critical)
  /\ check_upstream_missing a = false
  /\ check_issue_closure a = false
  /\ check_remote_missing a = false
  /\ dry_run a = false
  /\ returncode
       (fst (Demo.git_from_checkout ["git"; "rev-parse"; "feature-x"] Demo.on_main))
     = 0
  /\ returncode
       (fst (Demo.git_from_checkout
               ["git"; "merge-base"; "--is-ancestor"; "f1f1f1f1f1"; "dev"]
               Demo.on_main)) = 0
  /\ returncode
       (fst (Demo.git_from_checkout ["git"; "branch"; "-d"; "feature-x"]
               Demo.on_main)) <> 0
  /\ exit_status (result o) = 1
  /\ printed (trace o) = ["[DEL ] feature-x (tip f1f1f1f1 is in dev)"]
  /\ commands (trace o)
     = [["git"; "rev-parse"; "feature-x"];
        ["git"; "merge-base"; "--is-ancestor"; "f1f1f1f1f1"; "dev"];
        ["git"; "branch"; "-d"; "feature-x"]].
Proof.
  intros a protected critical o.
  assert (H1 : "feature-x" <> "main") by discriminate.
  assert (H2 : Py.lower "feature-x" ∉ protected) by by_evaluation.
  assert (H3 : Py.lower "feature-x" ∉ critical) by by_evaluation.
  assert (H4 : check_upstream_missing a = false) by reflexivity.
  assert (H5 : check_issue_closure a = false) by reflexivity.
  assert (H6 : check_remote_missing a = false) by reflexivity.
  assert (H7 : dry_run a = false) by reflexivity.
  assert (H8 : returncode
                 (fst (Demo.git_from_checkout ["git"; "rev-parse"; "feature-x"]
                         Demo.on_main)) = 0) by reflexivity.
  assert (H9 : returncode
                 (fst (Demo.git_from_checkout
                         ["git"; "merge-base"; "--is-ancestor"; "f1f1f1f1f1"; "dev"]
                         Demo.on_main)) = 0) by reflexivity.
  assert (H10 : returncode
                  (fst (Demo.git_from_checkout ["git"; "branch"; "-d"; "feature-x"]
                          Demo.on_main)) <> 0) by (vm_compute; discriminate).
  repeat (split; [assumption |]).
  destruct (refused_deletion_ends_the_run (H := Demo.checkout_os) protected critical
              "main" "dev" a
              "feature-x" ["main"] Demo.on_main H1 H2 H3 H4 H5 H6 H7 H8 H9 H10)
    as (_ & Hstatus & _ & Htr).
  split; [exact Hstatus |].
  unfold o. rewrite Htr. vm_compute. split; reflexivity.
Defined.


(** ** The scenarios of the specification *)

Example scenario_A_run :
  let o := script ∅ Demo.plain_args Demo.scenario_A in
  result o = inr tt
  /\ printed (trace o)
     = ["[SKIP] dev (protected)";
        "[DEL ] feature-x (tip f1f1f1f1 is in dev)";
        "[SKIP] main (current)"]
  /\ deletions (trace o) = [["git"; "branch"; "-d"; "feature-x"]]
  /\ exit_status (result o) = 0.
Proof. vm_compute. repeat split. Qed.

Example scenario_B_open_run :
  let o := script ∅ Demo.issue_args Demo.scenario_B_open in
  printed (trace o)
  = ["[KEEP] 42-fix-bug (no issue-closure marker on dev for #42)";
     "[SKIP] dev (protected)";
     "[SKIP] main (current)"].
Proof. vm_compute. reflexivity. Qed.

Example scenario_C_run :
  let o := script ∅ Demo.remote_check_args Demo.scenario_C in
  printed (trace o)
  = ["[SKIP] dev (protected)";
     "[KEEP] feature-x (exists on origin)";
     "[SKIP] main (current)"]
  /\ deletions (trace o) = [].
Proof. vm_compute. repeat split. Qed.
